(** * RealTutor: the multimodal tutoring session orchestrator

    A shallow embedding of [MediaStreamTutorSession]
    (src/lib/api/mediaStreamTutor.ts) and of the parts of the browser it
    drives: media tracks, the speech recogniser, the speech synthesiser's
    queue, timers and pending promises.

    The class is single-threaded and callback-driven.  Every method and every
    callback becomes a function from [World] to [World].  The two [async]
    methods of the sampling path, [captureScreenFrame] and
    [analyzeScreenAndSpeech], are cut at the [await] that waits for the
    outside world: the continuation is a second function, run by the event
    that settles the promise, so that other events can come in between.  The
    start methods have a single [await], on the acquisition promise; they are
    kept whole and take the outcome of the acquisition as an argument.

    What is left out: the WebRTC peer connection and data channel (of the
    connection set-up only the string function [setSdpSetupAttribute] is
    modelled), the persistence and analytics calls ([saveSession],
    [recordActivity]), and console output; none of them reads or writes a
    field modelled here.  The
    subscriber callbacks ([onMessage], [onStateChange]) are taken to return
    normally; what they receive is recorded in the world. *)

From Stdlib Require Import String Ascii Bool List Lia.
From stdpp Require Import base option list strings.
Import ListNotations.

Local Open Scope string_scope.

(** ** JavaScript strings *)

(** A string used as a condition: the empty string is falsy. *)
Definition truthy (s : string) : bool :=
  match s with
  | EmptyString => false
  | String _ _ => true
  end.

(** [s.split(sep)] for a one-character separator. *)
Fixpoint split (sep : ascii) (s : string) : list string :=
  match s with
  | EmptyString => [EmptyString]
  | String c rest =>
      if Ascii.eqb c sep then EmptyString :: split sep rest
      else match split sep rest with
           | [] => [String c EmptyString]
           | h :: t => String c h :: t
           end
  end.

Definition comma : ascii := ","%char.

(** ** Media streams *)

Module Media.

Inductive TrackKind := audio | video.
Inductive ReadyState := live | ended.

Record MediaStreamTrack := {
  kind : TrackKind;
  readyState : ReadyState;
  enabled : bool;
  onended : bool  (* the session's [onended] handler is attached *)
}.

(** A [MediaStream] is the list of its tracks.  The session is the only
    holder of the streams it acquires, so a stream is kept by value. *)
Definition MediaStream := list MediaStreamTrack.

Definition isVideo (t : MediaStreamTrack) : bool :=
  match kind t with video => true | audio => false end.

Definition isLive (t : MediaStreamTrack) : bool :=
  match readyState t with live => true | ended => false end.

(** [track.stop()] *)
Definition stop (t : MediaStreamTrack) : MediaStreamTrack :=
  {| kind := kind t; readyState := ended; enabled := enabled t; onended := onended t |}.

(** [track.enabled = true] *)
Definition enable (t : MediaStreamTrack) : MediaStreamTrack :=
  {| kind := kind t; readyState := readyState t; enabled := true; onended := onended t |}.

(** [track.onended = () => ...] *)
Definition setOnended (t : MediaStreamTrack) : MediaStreamTrack :=
  {| kind := kind t; readyState := readyState t; enabled := enabled t; onended := true |}.

Definition getTracks (s : MediaStream) : list MediaStreamTrack := s.
Definition getVideoTracks (s : MediaStream) : list MediaStreamTrack := List.filter isVideo s.

(** [stream.getTracks().forEach(track => track.stop())] *)
Definition stopTracks (s : MediaStream) : MediaStream := List.map stop (getTracks s).

(** [stream.getVideoTracks().forEach(track => track.stop())] *)
Definition stopVideoTracks (s : MediaStream) : MediaStream :=
  List.map (fun t => if isVideo t then stop t else t) s.

(** [stream.getVideoTracks().forEach(f)] for an [f] that updates the track. *)
Definition forEachVideoTrack (f : MediaStreamTrack -> MediaStreamTrack)
    (s : MediaStream) : MediaStream :=
  List.map (fun t => if isVideo t then f t else t) s.

(** What [getUserMedia] / [getDisplayMedia] throw: a [DOMException] named
    [NotAllowedError], or any other error with its message. *)
Inductive MediaError :=
| NotAllowedError
| OtherError (message : string).

(** How an acquisition promise settles. *)
Inductive Acquired :=
| Granted (s : MediaStream)
| Denied (e : MediaError).

Definition liveVideoTrack : MediaStreamTrack :=
  {| kind := video; readyState := live; enabled := true; onended := false |}.

Definition liveAudioTrack : MediaStreamTrack :=
  {| kind := audio; readyState := live; enabled := true; onended := false |}.

End Media.

(** ** The speech recogniser and synthesiser objects *)

Module Speech.

(** One [SpeechRecognition] object.  The three handler fields say whether
    the session's closure is attached ([null] otherwise); [running] is the
    browser's side: started and not yet ended. *)
Record SpeechRecognition := {
  continuous : bool;
  interimResults : bool;
  lang : string;
  onresult : bool;
  onerror : bool;
  onend : bool;
  running : bool
}.

(** [new SpeechRecognition()] followed by the three configuration
    assignments the source always makes. *)
Definition newRecognition : SpeechRecognition :=
  {| continuous := true; interimResults := true; lang := "ko-KR";
     onresult := false; onerror := false; onend := false; running := false |}.

Definition attachHandlers (r : SpeechRecognition) : SpeechRecognition :=
  {| continuous := continuous r; interimResults := interimResults r; lang := lang r;
     onresult := true; onerror := true; onend := true; running := running r |}.

Definition detachHandlers (r : SpeechRecognition) : SpeechRecognition :=
  {| continuous := continuous r; interimResults := interimResults r; lang := lang r;
     onresult := false; onerror := false; onend := false; running := running r |}.

Definition setRunning (b : bool) (r : SpeechRecognition) : SpeechRecognition :=
  {| continuous := continuous r; interimResults := interimResults r; lang := lang r;
     onresult := onresult r; onerror := onerror r; onend := onend r; running := b |}.

(** One entry of [event.results]: [results[i][0].transcript] and
    [results[i].isFinal]. *)
Record RecognitionResult := {
  transcript : string;
  isFinal : bool
}.

Record ResultEvent := {
  resultIndex : nat;
  results : list RecognitionResult
}.

(** A [SpeechSynthesisUtterance]: its text, language and whether the
    session's [onend] / [onerror] closures are attached (rate, pitch and
    volume are constants of no consequence here). *)
Record Utterance := {
  utext : string;
  ulang : string;
  uonend : bool;
  uonerror : bool
}.

End Speech.

(** ** The generative-language API *)

Module Gemini.

Inductive Role := user | model | tutor | system.

(** An entry of [messageHistory]. *)
Record HistoryMessage := {
  role : Role;
  content : string
}.

Inductive Part :=
| text (s : string)
| inlineData (data mimeType : string).

(** The SDK's [Content]. *)
Record Content := {
  crole : Role;
  parts : list Part
}.

Definition convertRole (r : Role) : Role :=
  match r with
  | tutor => model
  | system => user
  | r => r
  end.

Definition convertToGeminiHistory (messageHistory : list HistoryMessage) : list Content :=
  List.map (fun msg => {| crole := convertRole (role msg); parts := [text (content msg)] |})
           messageHistory.

(** The object returned by [model.startChat({history, generationConfig})]. *)
Record ChatSession := {
  history : list Content;
  maxOutputTokens : nat
}.

Definition startChat (h : list Content) : ChatSession :=
  {| history := h; maxOutputTokens := 256 |}.

(** How [model.generateContent] and [result.response.text()] end. *)
Inductive GenerateOutcome :=
| Replied (responseText : string)
| Rejected          (* the promise rejects: quota, network *)
| Malformed.        (* [response.text()] throws *)

End Gemini.

Import Media Speech Gemini.

(** ** The session's data *)

Record MediaStreamSessionState := {
  isConnected : bool;
  isAudioActive : bool;
  isVideoActive : bool;
  isScreenActive : bool;
  isProcessing : bool;
  isSpeaking : bool
}.

(** [Partial<MediaStreamSessionState>]: the fields an [updateState] call
    names, with their new values. *)
Inductive Flag :=
| IsConnected | IsAudioActive | IsVideoActive | IsScreenActive | IsProcessing | IsSpeaking.

Definition PartialState := list (Flag * bool).

Definition setFlag (f : Flag) (b : bool) (s : MediaStreamSessionState) : MediaStreamSessionState :=
  match f with
  | IsConnected =>
      {| isConnected := b; isAudioActive := isAudioActive s; isVideoActive := isVideoActive s;
         isScreenActive := isScreenActive s; isProcessing := isProcessing s; isSpeaking := isSpeaking s |}
  | IsAudioActive =>
      {| isConnected := isConnected s; isAudioActive := b; isVideoActive := isVideoActive s;
         isScreenActive := isScreenActive s; isProcessing := isProcessing s; isSpeaking := isSpeaking s |}
  | IsVideoActive =>
      {| isConnected := isConnected s; isAudioActive := isAudioActive s; isVideoActive := b;
         isScreenActive := isScreenActive s; isProcessing := isProcessing s; isSpeaking := isSpeaking s |}
  | IsScreenActive =>
      {| isConnected := isConnected s; isAudioActive := isAudioActive s; isVideoActive := isVideoActive s;
         isScreenActive := b; isProcessing := isProcessing s; isSpeaking := isSpeaking s |}
  | IsProcessing =>
      {| isConnected := isConnected s; isAudioActive := isAudioActive s; isVideoActive := isVideoActive s;
         isScreenActive := isScreenActive s; isProcessing := b; isSpeaking := isSpeaking s |}
  | IsSpeaking =>
      {| isConnected := isConnected s; isAudioActive := isAudioActive s; isVideoActive := isVideoActive s;
         isScreenActive := isScreenActive s; isProcessing := isProcessing s; isSpeaking := b |}
  end.

(** The object spread [{ ...state, ...newState }]. *)
Definition spread (s : MediaStreamSessionState) (newState : PartialState) : MediaStreamSessionState :=
  fold_left (fun acc fb => setFlag (fst fb) (snd fb) acc) newState s.

(** What the session hands to its subscribers: the argument of each
    [sendMessage] call and the full state of each [updateState] call. *)
Inductive MessageType := system_info | user_message | tutor_message | speech_text.

Record SessionMessage := {
  mtype : MessageType;
  mcontent : string;
  minterim : option bool
}.

Inductive Emitted :=
| OnMessage (m : SessionMessage)
| OnStateChange (s : MediaStreamSessionState).

(** The callbacks the session hands to [setTimeout]. *)
Inductive TimerCallback :=
| AudioStartDelay   (* startAudioStream: start recognition once the microphone settled *)
| RestartDelay      (* onend: restart recognition *)
| CreateDelay       (* safeStartSpeechRecognition: create the new instance *)
| StartDelay        (* safeStartSpeechRecognition: start the new instance *)
| SpeakCheck.       (* speakResponse: did playback begin? *)

Record Timer := {
  delay : nat;  (* milliseconds *)
  callback : TimerCallback
}.

(** A promise the session awaits. *)
Inductive Pending :=
| AwaitGrabFrame (track : MediaStreamTrack)   (* [imageCapture.grabFrame()] on that track *)
| AwaitGenerate (request : list Part).        (* [model.generateContent(request)] *)

(** The fields of the class ([this]).  [speechRecognition] refers to an
    object of the recogniser store by its index; [captureInterval] holds the
    period of the live interval timer.  The WebRTC peer connection, the data
    channel and the identifiers used only for persistence are left out. *)
Record Session := {
  localAudioStream : option MediaStream;
  localVideoStream : option MediaStream;
  localScreenStream : option MediaStream;
  speechRecognition : option nat;
  speechSynthesis : option Utterance;
  state : MediaStreamSessionState;
  messageHistory : list HistoryMessage;
  subject : string;
  level : string;
  captureInterval : option nat;
  speechToTextResult : string
}.

(** The session together with the browser objects it acts on and a record of
    what it sent out: [recognizers] is the store of all recogniser objects
    ever created, [synthQueue] the queue of [window.speechSynthesis],
    [timers] the [setTimeout] callbacks not yet run, [pending] the promises
    not yet settled, [emitted] what subscribers received (oldest first),
    [requests] the requests passed to [generateContent], and [analyses] the
    arguments of each [analyzeScreenAndSpeech] invocation. *)
Record World := {
  this : Session;
  recognizers : list SpeechRecognition;
  synthQueue : list Utterance;
  timers : list Timer;
  pending : list Pending;
  emitted : list Emitted;
  requests : list (list Part);
  analyses : list (string * string)
}.

(** Field updates. *)
Definition set_localAudioStream (v : option MediaStream) (s : Session) : Session :=
  {| localAudioStream := v; localVideoStream := localVideoStream s;
     localScreenStream := localScreenStream s; speechRecognition := speechRecognition s;
     speechSynthesis := speechSynthesis s; state := state s;
     messageHistory := messageHistory s; subject := subject s; level := level s;
     captureInterval := captureInterval s; speechToTextResult := speechToTextResult s |}.

Definition set_localVideoStream (v : option MediaStream) (s : Session) : Session :=
  {| localAudioStream := localAudioStream s; localVideoStream := v;
     localScreenStream := localScreenStream s; speechRecognition := speechRecognition s;
     speechSynthesis := speechSynthesis s; state := state s;
     messageHistory := messageHistory s; subject := subject s; level := level s;
     captureInterval := captureInterval s; speechToTextResult := speechToTextResult s |}.

Definition set_localScreenStream (v : option MediaStream) (s : Session) : Session :=
  {| localAudioStream := localAudioStream s; localVideoStream := localVideoStream s;
     localScreenStream := v; speechRecognition := speechRecognition s;
     speechSynthesis := speechSynthesis s; state := state s;
     messageHistory := messageHistory s; subject := subject s; level := level s;
     captureInterval := captureInterval s; speechToTextResult := speechToTextResult s |}.

Definition set_speechRecognition (v : option nat) (s : Session) : Session :=
  {| localAudioStream := localAudioStream s; localVideoStream := localVideoStream s;
     localScreenStream := localScreenStream s; speechRecognition := v;
     speechSynthesis := speechSynthesis s; state := state s;
     messageHistory := messageHistory s; subject := subject s; level := level s;
     captureInterval := captureInterval s; speechToTextResult := speechToTextResult s |}.

Definition set_speechSynthesis (v : option Utterance) (s : Session) : Session :=
  {| localAudioStream := localAudioStream s; localVideoStream := localVideoStream s;
     localScreenStream := localScreenStream s; speechRecognition := speechRecognition s;
     speechSynthesis := v; state := state s; messageHistory := messageHistory s;
     subject := subject s; level := level s; captureInterval := captureInterval s;
     speechToTextResult := speechToTextResult s |}.

Definition set_state (v : MediaStreamSessionState) (s : Session) : Session :=
  {| localAudioStream := localAudioStream s; localVideoStream := localVideoStream s;
     localScreenStream := localScreenStream s; speechRecognition := speechRecognition s;
     speechSynthesis := speechSynthesis s; state := v; messageHistory := messageHistory s;
     subject := subject s; level := level s; captureInterval := captureInterval s;
     speechToTextResult := speechToTextResult s |}.

Definition set_messageHistory (v : list HistoryMessage) (s : Session) : Session :=
  {| localAudioStream := localAudioStream s; localVideoStream := localVideoStream s;
     localScreenStream := localScreenStream s; speechRecognition := speechRecognition s;
     speechSynthesis := speechSynthesis s; state := state s; messageHistory := v;
     subject := subject s; level := level s; captureInterval := captureInterval s;
     speechToTextResult := speechToTextResult s |}.

Definition set_captureInterval (v : option nat) (s : Session) : Session :=
  {| localAudioStream := localAudioStream s; localVideoStream := localVideoStream s;
     localScreenStream := localScreenStream s; speechRecognition := speechRecognition s;
     speechSynthesis := speechSynthesis s; state := state s;
     messageHistory := messageHistory s; subject := subject s; level := level s;
     captureInterval := v; speechToTextResult := speechToTextResult s |}.

Definition set_speechToTextResult (v : string) (s : Session) : Session :=
  {| localAudioStream := localAudioStream s; localVideoStream := localVideoStream s;
     localScreenStream := localScreenStream s; speechRecognition := speechRecognition s;
     speechSynthesis := speechSynthesis s; state := state s;
     messageHistory := messageHistory s; subject := subject s; level := level s;
     captureInterval := captureInterval s; speechToTextResult := v |}.

Definition set_this (v : Session) (w : World) : World :=
  {| this := v; recognizers := recognizers w; synthQueue := synthQueue w; timers := timers w;
     pending := pending w; emitted := emitted w; requests := requests w;
     analyses := analyses w |}.

Definition set_recognizers (v : list SpeechRecognition) (w : World) : World :=
  {| this := this w; recognizers := v; synthQueue := synthQueue w; timers := timers w;
     pending := pending w; emitted := emitted w; requests := requests w;
     analyses := analyses w |}.

Definition set_synthQueue (v : list Utterance) (w : World) : World :=
  {| this := this w; recognizers := recognizers w; synthQueue := v; timers := timers w;
     pending := pending w; emitted := emitted w; requests := requests w;
     analyses := analyses w |}.

Definition set_timers (v : list Timer) (w : World) : World :=
  {| this := this w; recognizers := recognizers w; synthQueue := synthQueue w; timers := v;
     pending := pending w; emitted := emitted w; requests := requests w;
     analyses := analyses w |}.

Definition set_pending (v : list Pending) (w : World) : World :=
  {| this := this w; recognizers := recognizers w; synthQueue := synthQueue w;
     timers := timers w; pending := v; emitted := emitted w; requests := requests w;
     analyses := analyses w |}.

Definition set_emitted (v : list Emitted) (w : World) : World :=
  {| this := this w; recognizers := recognizers w; synthQueue := synthQueue w;
     timers := timers w; pending := pending w; emitted := v; requests := requests w;
     analyses := analyses w |}.

Definition set_requests (v : list (list Part)) (w : World) : World :=
  {| this := this w; recognizers := recognizers w; synthQueue := synthQueue w;
     timers := timers w; pending := pending w; emitted := emitted w; requests := v;
     analyses := analyses w |}.

Definition set_analyses (v : list (string * string)) (w : World) : World :=
  {| this := this w; recognizers := recognizers w; synthQueue := synthQueue w;
     timers := timers w; pending := pending w; emitted := emitted w; requests := requests w;
     analyses := v |}.

Definition onThis (f : Session -> Session) (w : World) : World := set_this (f (this w)) w.

(** The run-time environment, fixed for the life of a session. *)
Record Env := {
  API_KEY : option string;        (* process.env.NEXT_PUBLIC_GEMINI_API_KEY *)
  hasWindow : bool;               (* typeof window !== 'undefined' *)
  hasSpeechRecognition : bool;    (* window.SpeechRecognition || window.webkitSpeechRecognition *)
  hasImageCapture : bool;         (* 'ImageCapture' in window *)
  hasSpeechSynthesis : bool;      (* window.speechSynthesis *)
  hasMediaDevices : bool          (* navigator.mediaDevices *)
}.

(** [!API_KEY] *)
Definition noApiKey (env : Env) : bool :=
  match API_KEY env with
  | None => true
  | Some k => negb (truthy k)
  end.

(** ** Helper methods *)

(** [updateState]: merge, then hand the full new state to the subscriber. *)
Definition updateState (newState : PartialState) (w : World) : World :=
  let st := spread (state (this w)) newState in
  set_emitted (emitted w ++ [OnStateChange st]) (onThis (set_state st) w).

Definition sendMessage (m : SessionMessage) (w : World) : World :=
  set_emitted (emitted w ++ [OnMessage m]) w.

Definition systemInfo (c : string) : SessionMessage :=
  {| mtype := system_info; mcontent := c; minterim := None |}.

Definition setTimeout (cb : TimerCallback) (ms : nat) (w : World) : World :=
  set_timers (timers w ++ [{| delay := ms; callback := cb |}]) w.

(** An assignment to a field of the recogniser object [id]. *)
Definition updateRecognizer (id : nat) (f : SpeechRecognition -> SpeechRecognition)
    (w : World) : World :=
  set_recognizers (alter f id (recognizers w)) w.

Definition pushHistory (m : HistoryMessage) (w : World) : World :=
  onThis (fun s => set_messageHistory (messageHistory s ++ [m]) s) w.

(** [capturePeriod], a private field that is never reassigned. *)
Definition capturePeriod : nat := 5000.

(** ** Speech recognition *)

(** [setupSpeechRecognition]: attach the three handlers to the current
    instance, if there is one. *)
Definition setupSpeechRecognition (w : World) : World :=
  match speechRecognition (this w) with
  | None => w
  | Some id => updateRecognizer id attachHandlers w
  end.

(** The loop of [onresult] over [results] from [resultIndex] on. *)
Definition finalTranscript (ev : ResultEvent) : string :=
  fold_left (fun acc r => if isFinal r then acc +:+ transcript r else acc)
            (drop (resultIndex ev) (results ev)) EmptyString.

Definition interimTranscript (ev : ResultEvent) : string :=
  fold_left (fun acc r => if isFinal r then acc else acc +:+ transcript r)
            (drop (resultIndex ev) (results ev)) EmptyString.

Definition onresultHandler (ev : ResultEvent) (w : World) : World :=
  if truthy (finalTranscript ev) then
    sendMessage {| mtype := speech_text; mcontent := finalTranscript ev; minterim := Some false |}
      (onThis (set_speechToTextResult (finalTranscript ev)) w)
  else if truthy (interimTranscript ev) then
    sendMessage {| mtype := speech_text; mcontent := interimTranscript ev; minterim := Some true |} w
  else w.

Definition microphoneDenied : string :=
  "마이크 접근 권한이 없습니다. 브라우저 설정에서 마이크 권한을 허용해주세요.".

Definition onerrorHandler (error : string) (w : World) : World :=
  if String.eqb error "no-speech" then w
  else if String.eqb error "not-allowed" then sendMessage (systemInfo microphoneDenied) w
  else w.

Definition onendHandler (w : World) : World :=
  if negb (isAudioActive (state (this w))) then w
  else setTimeout RestartDelay 1000 (onThis (set_speechRecognition None) w).

(** [safeStartSpeechRecognition], up to its [setTimeout]. *)
Definition safeStartSpeechRecognition (env : Env) (w : World) : World :=
  if negb (hasWindow env) then w
  else
    let w1 :=
      match speechRecognition (this w) with
      | Some id =>
          onThis (set_speechRecognition None)
            (updateRecognizer id (setRunning false) (updateRecognizer id detachHandlers w))
      | None => w
      end in
    setTimeout CreateDelay 500 w1.

(** The callback [safeStartSpeechRecognition] schedules after 500 ms. *)
Definition createRecognition (env : Env) (w : World) : World :=
  if negb (isAudioActive (state (this w))) then w
  else if negb (hasSpeechRecognition env) then w
  else
    let id := length (recognizers w) in
    let w1 := set_recognizers (recognizers w ++ [newRecognition]) w in
    let w2 := onThis (set_speechRecognition (Some id)) w1 in
    setTimeout StartDelay 300 (setupSpeechRecognition w2).

(** The callback scheduled after a further 300 ms: [start()] throws on an
    instance that is already running, and the [catch] drops the reference. *)
Definition startRecognition (w : World) : World :=
  if isAudioActive (state (this w)) then
    match speechRecognition (this w) with
    | Some id =>
        match recognizers w !! id with
        | Some r =>
            if running r then onThis (set_speechRecognition None) w
            else updateRecognizer id (setRunning true) w
        | None => w
        end
    | None => w
    end
  else w.

(** The callbacks of [startAudioStream] (500 ms) and of [onend] (1000 ms). *)
Definition restartRecognition (env : Env) (w : World) : World :=
  if isAudioActive (state (this w)) then safeStartSpeechRecognition env w else w.

(** ** Speech synthesis *)

Definition speechOutputProblem : string :=
  "음성 출력에 문제가 발생했습니다. 텍스트로 대화를 계속하세요.".

Definition newUtterance (t : string) : Utterance :=
  {| utext := t; ulang := "ko-KR"; uonend := true; uonerror := true |}.

(** [speakResponse].  Reading [window.speechSynthesis] without a [window]
    throws, which the method's own [catch] turns into [isSpeaking: false]. *)
Definition speakResponse (env : Env) (t : string) (w : World) : World :=
  match speechSynthesis (this w) with
  | None => w
  | Some _ =>
      if negb (hasWindow env) then updateState [(IsSpeaking, false)] w
      else if negb (hasSpeechSynthesis env) then w
      else
        let w1 := set_synthQueue [] w in                        (* cancel() *)
        let w2 := updateState [(IsSpeaking, true)] w1 in
        let w3 := onThis (set_speechSynthesis (Some (newUtterance t))) w2 in
        let w4 := set_synthQueue (synthQueue w3 ++ [newUtterance t]) w3 in   (* speak() *)
        setTimeout SpeakCheck 1000 w4
  end.

(** The utterance's [onend] and [onerror] handlers. *)
Definition utteranceOnend (w : World) : World :=
  updateState [(IsSpeaking, false)] w.

Definition utteranceOnerror (w : World) : World :=
  updateState [(IsSpeaking, false)] (sendMessage (systemInfo speechOutputProblem) w).

(** [window.speechSynthesis.speaking]: the queue holds an utterance. *)
Definition speaking (w : World) : bool :=
  match synthQueue w with
  | [] => false
  | _ :: _ => true
  end.

(** The check scheduled 1000 ms after [speak()]. *)
Definition speakCheck (w : World) : World :=
  if isSpeaking (state (this w)) && negb (speaking w)
  then updateState [(IsSpeaking, false)] w
  else w.

(** ** Prompts *)

Definition TUTOR_SYSTEM_PROMPT : string :=
  "당신은 RealTutor라는 개인화된 AI 학습 튜터입니다. 
화면 공유와 음성 대화를 통해 학생들을 지도합니다.
화면에 보이는 내용과 학생의 말을 분석하여 실시간으로 도움을 제공하세요.

다음 원칙을 따라주세요:
1. 화면의 코드, 텍스트, 이미지 등을 분석하여 맥락을 파악하세요.
2. 오류를 발견하면 구체적인 해결책을 제시하세요.
3. 설명은 간결하고 명확하게 전달하세요 (음성 대화에 적합하게).
4. 학생이 문제를 스스로 해결할 수 있도록 힌트를 제공하세요.
5. 학생의 이해도를 지속적으로 확인하세요.
6. 학생이 성취했을 때 긍정적인 피드백을 제공하세요.

화면 공유에서는:
- 코드의 구문 오류, 로직 오류, 스타일 문제를 식별하세요.
- 문서나 슬라이드의 주요 내용과 개념을 요약하세요.
- 수학 문제나 다이어그램의 해석을 도와주세요.

음성 대화에서는:
- 학생의 질문을 정확히 이해하고 답변하세요.
- 발음이 명확하지 않은 경우, 가장 가능성 높은 해석을 제시하세요.
- 친절하고 격려하는 톤을 유지하세요.

한국어로 응답해주세요.".

(** The template literal [systemPrompt] of [analyzeScreenAndSpeech]. *)
Definition systemPrompt (subject level : string) : string :=
  "당신은 AI 튜터입니다. 학생에게 " +:+ subject +:+ "(" +:+ level +:+ " 수준)를 가르치고 있습니다.
다음 지침을 따라주세요:
1. 답변은 간결하고 명확하게 작성하세요. 불필요한 설명은 줄이고 핵심만 전달하세요.
2. 3-4문장 이내로 짧게 답변하세요. 학생이 소화하기 쉬운 분량이 중요합니다.
3. 공유된 화면을 분석하고 학생의 질문에 직접적으로 답하세요.
4. 전문 용어는 필요한 경우에만 사용하고, 가능한 쉽게 설명하세요.
5. 질문에 대한 직접적인 해결책을 제시하세요.".

(** The content of the system message the constructor puts first in the
    history. *)
Definition systemMessage (subject level : string) : string :=
  TUTOR_SYSTEM_PROMPT +:+ "

학습 주제: " +:+ subject +:+ "
학습자 수준: " +:+ level.

Definition defaultUserMessage : string := "현재 화면을 분석해주세요.".

(** The template literal [userMessage] built from the speech text. *)
Definition questionMessage (speechText : string) : string :=
  "학생 질문: " +:+ speechText +:+ "

화면을 분석하고 이 질문에 답해주세요.".

Definition analysisFailed : string :=
  "화면 분석 중 오류가 발생했습니다. 잠시 후 다시 시도해주세요.".

(** ** Acquiring and releasing capabilities *)

Definition microphoneTrouble : string :=
  "마이크 활성화 중 오류가 발생했습니다. 브라우저 설정에서 마이크 권한을 확인해주세요.".

Definition cameraDenied : string :=
  "카메라 접근 권한이 없습니다. 브라우저 설정에서 카메라 권한을 허용해주세요. Mac 사용자의 경우 시스템 환경설정 > 보안 및 개인정보 보호에서 확인하세요.".

Definition noMediaDevices : string :=
  "현재 브라우저에서 mediaDevices API를 지원하지 않습니다".

Definition noVideoTrack : string := "비디오 트랙을 찾을 수 없습니다".

Definition screenDenied : string :=
  "화면 공유 권한이 거부되었습니다. 브라우저 설정에서 화면 공유 권한을 허용해주세요. Mac 사용자의 경우 시스템 환경설정에서 화면 녹화 권한을 확인하세요.".

Definition noScreenTrack : string := "화면 공유 트랙을 찾을 수 없습니다".

(** The start methods are [async] with a single [await], on the acquisition
    promise; the argument [r] is how that promise settles.  Each returns the
    new world and the error it rethrows, if any.  Only [startVideoStream]
    tests [navigator.mediaDevices]; in the other two its absence is one more
    way for the acquisition to fail. *)
Definition startAudioStream (r : Acquired) (w : World) : World * option MediaError :=
  match r with
  | Granted s =>
      let w1 := onThis (set_localAudioStream (Some s)) w in
      let w2 := updateState [(IsAudioActive, true)] w1 in
      (setTimeout AudioStartDelay 500 w2, None)
  | Denied NotAllowedError => (sendMessage (systemInfo microphoneDenied) w, Some NotAllowedError)
  | Denied e => (w, Some e)
  end.

(** The [catch] block of [startVideoStream]. *)
Definition cameraCatch (e : MediaError) (w : World) : World * option MediaError :=
  match e with
  | NotAllowedError => (sendMessage (systemInfo cameraDenied) w, Some e)
  | OtherError m => (sendMessage (systemInfo ("카메라 접근 오류: " +:+ m)) w, Some e)
  end.

Definition startVideoStream (env : Env) (r : Acquired) (w : World) : World * option MediaError :=
  let w1 :=
    match localVideoStream (this w) with
    | Some old => onThis (set_localVideoStream (Some (stopTracks old))) w
    | None => w
    end in
  if negb (hasMediaDevices env) then cameraCatch (OtherError noMediaDevices) w1
  else
    match r with
    | Denied e => cameraCatch e w1
    | Granted s =>
        let w2 := onThis (set_localVideoStream (Some s)) w1 in
        match getVideoTracks s with
        | [] => cameraCatch (OtherError noVideoTrack) w2
        | _ :: _ =>
            let w3 := onThis (set_localVideoStream (Some (forEachVideoTrack enable s))) w2 in
            (updateState [(IsVideoActive, true)] w3, None)
        end
    end.

(** [startScreenCapture]: replace the interval timer by a new one. *)
Definition startScreenCapture (w : World) : World :=
  onThis (set_captureInterval (Some capturePeriod)) w.

(** The [catch] block of [startScreenStream]. *)
Definition screenCatch (e : MediaError) (w : World) : World * option MediaError :=
  match e with
  | NotAllowedError => (sendMessage (systemInfo screenDenied) w, Some e)
  | OtherError m => (sendMessage (systemInfo ("화면 공유 오류: " +:+ m)) w, Some e)
  end.

Definition startScreenStream (r : Acquired) (w : World) : World * option MediaError :=
  let w1 :=
    match localScreenStream (this w) with
    | Some old => onThis (set_localScreenStream (Some (stopTracks old))) w
    | None => w
    end in
  match r with
  | Denied e => screenCatch e w1
  | Granted s =>
      let w2 := onThis (set_localScreenStream (Some s)) w1 in
      match getVideoTracks s with
      | [] => screenCatch (OtherError noScreenTrack) w2
      | _ :: _ =>
          let s' := forEachVideoTrack (fun t => enable (setOnended t)) s in
          let w3 := onThis (set_localScreenStream (Some s')) w2 in
          let w4 := updateState [(IsScreenActive, true)] w3 in
          (startScreenCapture w4, None)
      end
  end.

Module Config.
Record MediaStreamConfig := {
  audio : bool;
  video : bool;
  screen : bool
}.
End Config.

(** [startMediaStream]: the public entry point.  It is a sequence of four
    guarded [try] blocks; each acquisition that is asked for and not yet
    active is attempted, and its error is swallowed. *)
Definition tryStartAudio (config : Config.MediaStreamConfig) (ra : Acquired)
    (w : World) : World :=
  if Config.audio config && negb (isAudioActive (state (this w))) then
    match startAudioStream ra w with
    | (w', None) => w'
    | (w', Some _) => sendMessage (systemInfo microphoneTrouble) w'
    end
  else w.

Definition tryStartVideo (env : Env) (config : Config.MediaStreamConfig) (rv : Acquired)
    (w : World) : World :=
  if Config.video config && negb (isVideoActive (state (this w))) then
    fst (startVideoStream env rv w)
  else w.

Definition tryStartScreen (config : Config.MediaStreamConfig) (rs : Acquired)
    (w : World) : World :=
  if Config.screen config && negb (isScreenActive (state (this w))) then
    fst (startScreenStream rs w)
  else w.

Definition tryStartCapture (config : Config.MediaStreamConfig) (w : World) : World :=
  if Config.screen config && isScreenActive (state (this w)) then startScreenCapture w
  else w.

Definition startMediaStream (env : Env) (config : Config.MediaStreamConfig)
    (ra rv rs : Acquired) (w : World) : World :=
  tryStartCapture config
    (tryStartScreen config rs (tryStartVideo env config rv (tryStartAudio config ra w))).

Definition stopAudioStream (w : World) : World :=
  let w1 := updateState [(IsAudioActive, false)] w in
  let w2 :=
    match speechRecognition (this w1) with
    | Some id =>
        onThis (set_speechRecognition None)
          (updateRecognizer id (setRunning false) (updateRecognizer id detachHandlers w1))
    | None => w1
    end in
  match localAudioStream (this w2) with
  | Some s => onThis (set_localAudioStream None) w2
  | None => w2
  end.

Definition stopVideoStream (w : World) : World :=
  match localVideoStream (this w) with
  | Some s =>
      updateState [(IsVideoActive, false)]
        (onThis (set_localVideoStream (Some (stopVideoTracks s))) w)
  | None => w
  end.

Definition stopScreenStream (w : World) : World :=
  let w1 :=
    match localScreenStream (this w) with
    | Some s =>
        updateState [(IsScreenActive, false)]
          (onThis (set_localScreenStream (Some (stopVideoTracks s))) w)
    | None => w
    end in
  match captureInterval (this w1) with
  | Some _ => onThis (set_captureInterval None) w1
  | None => w1
  end.

Definition allInactive : PartialState :=
  [(IsConnected, false); (IsAudioActive, false); (IsVideoActive, false);
   (IsScreenActive, false); (IsProcessing, false); (IsSpeaking, false)].

(** [close].  Without a [window] the test of [window.speechSynthesis] throws
    and the method ends there. *)
Definition close (env : Env) (w : World) : World :=
  let w1 := stopScreenStream (stopVideoStream (stopAudioStream w)) in
  if negb (hasWindow env) then w1
  else
    let w2 := if hasSpeechSynthesis env then set_synthQueue [] w1 else w1 in
    updateState allInactive w2.

(** ** The tutor response engine *)

(** [analyzeScreenAndSpeech], up to its [await model.generateContent(...)].
    [sdkOk] says whether the SDK calls that precede it ([getGenerativeModel],
    [startChat]) return rather than throw.  The result tells whether the
    method is now suspended on the request ([true]) or has already returned. *)
Definition analyzeScreenAndSpeech (env : Env) (imageData speechText : string)
    (sdkOk : bool) (w : World) : World * bool :=
  let w0 := set_analyses (analyses w ++ [(imageData, speechText)]) w in
  if noApiKey env then (w0, false)
  else
    let w1 := updateState [(IsProcessing, true)] w0 in
    if negb sdkOk then (updateState [(IsProcessing, false)] w1, false)
    else
      let prompt := systemPrompt (subject (this w1)) (level (this w1)) in
      let geminiHistory := convertToGeminiHistory (messageHistory (this w1)) in
      let chat := startChat geminiHistory in
      let userMessage :=
        if truthy speechText then questionMessage speechText else defaultUserMessage in
      let w2 :=
        if truthy speechText then
          sendMessage {| mtype := user_message; mcontent := userMessage; minterim := None |}
            (pushHistory {| role := user; content := userMessage |} w1)
        else w1 in
      let imageParts := [text userMessage; inlineData imageData "image/jpeg"] in
      let request := text prompt :: imageParts in
      (set_pending (pending w2 ++ [AwaitGenerate request])
         (set_requests (requests w2 ++ [request]) w2), true).

(** The rest of [analyzeScreenAndSpeech], run when the request settles: the
    inner [try] or its [catch], then the [finally]. *)
Definition analyzeScreenAndSpeech_settled (env : Env) (o : GenerateOutcome)
    (w : World) : World :=
  let w1 :=
    match o with
    | Replied responseText =>
        let w' := pushHistory {| role := tutor; content := responseText |} w in
        let w'' :=
          sendMessage {| mtype := tutor_message; mcontent := responseText; minterim := None |} w' in
        speakResponse env responseText w''
    | Rejected | Malformed => sendMessage (systemInfo analysisFailed) w
    end in
  updateState [(IsProcessing, false)] w1.

(** ** The frame sampler *)

(** How [grabFrame] and the canvas encoding end: the data URL of the frame,
    or a rejection. *)
Inductive GrabOutcome :=
| Grabbed (imageDataUrl : string)
| GrabFailed.

(** [captureScreenFrame], up to its [await imageCapture.grabFrame()]. *)
Definition captureScreenFrame (env : Env) (w : World) : World :=
  match localScreenStream (this w) with
  | None => w
  | Some s =>
      if negb (isScreenActive (state (this w))) then w
      else
        match head (getVideoTracks s) with
        | Some videoTrack =>
            if hasWindow env && hasImageCapture env
            then set_pending (pending w ++ [AwaitGrabFrame videoTrack]) w
            else w
        | None => w
        end
  end.

(** [imageDataUrl.split(',')[1]] *)
Definition base64Of (imageDataUrl : string) : option string :=
  split comma imageDataUrl !! 1.

(** The statement after [await this.analyzeScreenAndSpeech(...)]. *)
Definition clearSpeech (w : World) : World :=
  onThis (set_speechToTextResult EmptyString) w.

(** The rest of [captureScreenFrame], run when the frame promise settles. *)
Definition captureScreenFrame_grabbed (env : Env) (g : GrabOutcome) (sdkOk : bool)
    (w : World) : World :=
  match g with
  | GrabFailed => w
  | Grabbed imageDataUrl =>
      match base64Of imageDataUrl with
      | None => w
      | Some base64Data =>
          if negb (truthy base64Data) then w
          else
            let speechText := speechToTextResult (this w) in
            if truthy speechText then
              match analyzeScreenAndSpeech env base64Data speechText sdkOk w with
              | (w', true) => w'                 (* suspended inside the call *)
              | (w', false) => clearSpeech w'
              end
            else w
      end
  end.

(** ** The constructor *)

Definition initialState : MediaStreamSessionState :=
  {| isConnected := false; isAudioActive := false; isVideoActive := false;
     isScreenActive := false; isProcessing := false; isSpeaking := false |}.

Definition newSession (env : Env) (subject level : string) : World :=
  let withRecognition := hasWindow env && hasSpeechRecognition env in
  {| this :=
       {| localAudioStream := None; localVideoStream := None; localScreenStream := None;
          speechRecognition := if withRecognition then Some 0 else None;
          speechSynthesis :=
            if hasWindow env
            then Some {| utext := EmptyString; ulang := "ko-KR"; uonend := false; uonerror := false |}
            else None;
          state := initialState;
          messageHistory := [{| role := system; content := systemMessage subject level |}];
          subject := subject; level := level;
          captureInterval := None;
          speechToTextResult := EmptyString |};
     recognizers := if withRecognition then [attachHandlers newRecognition] else [];
     synthQueue := []; timers := []; pending := []; emitted := [];
     requests := []; analyses := [] |}.

(** ** Events *)

(** Everything that makes the session run: calls of its public methods and
    callbacks from the browser.  Timers and promises are named by their
    position in [timers] and [pending]. *)
Inductive Event :=
| CallStartMediaStream (config : Config.MediaStreamConfig) (ra rv rs : Acquired)
| CallStopAudioStream
| CallStopVideoStream
| CallStopScreenStream
| CallClose
| TimerFires (i : nat)
| IntervalFires
| GrabFrameSettles (i : nat) (g : GrabOutcome) (sdkOk : bool)
| GenerateSettles (i : nat) (o : GenerateOutcome)
| RecognizerResult (id : nat) (ev : ResultEvent)
| RecognizerError (id : nat) (error : string)
| RecognizerEnds (id : nat)
| UtteranceEnds
| UtteranceFails
| SynthesisDrops
| ScreenTrackEnds.

Definition runTimer (env : Env) (cb : TimerCallback) (w : World) : World :=
  match cb with
  | AudioStartDelay => restartRecognition env w
  | RestartDelay => restartRecognition env w
  | CreateDelay => createRecognition env w
  | StartDelay => startRecognition w
  | SpeakCheck => speakCheck w
  end.

(** The browser delivers an event to recogniser [id]: only a running
    instance produces events, and only an attached handler runs. *)
Definition deliver (id : nat) (attached : SpeechRecognition -> bool)
    (handler : World -> World) (w : World) : World :=
  match recognizers w !! id with
  | Some r => if running r && attached r then handler w else w
  | None => w
  end.

Definition recognizerEnds (id : nat) (w : World) : World :=
  match recognizers w !! id with
  | Some r =>
      if running r then
        let w1 := updateRecognizer id (setRunning false) w in
        if onend r then onendHandler w1 else w1
      else w
  | None => w
  end.

(** The head of the synthesiser's queue leaves it and its handler runs. *)
Definition utteranceLeaves (attached : Utterance -> bool) (handler : World -> World)
    (w : World) : World :=
  match synthQueue w with
  | [] => w
  | u :: rest =>
      let w1 := set_synthQueue rest w in
      if attached u then handler w1 else w1
  end.

(** The user ends the share from the browser: the track's [onended] handler
    calls [stopScreenStream]. *)
Definition screenTrackEnds (w : World) : World :=
  match localScreenStream (this w) with
  | Some s =>
      if List.existsb (fun t => isVideo t && isLive t && onended t) s
      then stopScreenStream w
      else w
  | None => w
  end.

Definition step (env : Env) (w : World) (e : Event) : World :=
  match e with
  | CallStartMediaStream config ra rv rs => startMediaStream env config ra rv rs w
  | CallStopAudioStream => stopAudioStream w
  | CallStopVideoStream => stopVideoStream w
  | CallStopScreenStream => stopScreenStream w
  | CallClose => close env w
  | TimerFires i =>
      match timers w !! i with
      | Some t => runTimer env (callback t) (set_timers (delete i (timers w)) w)
      | None => w
      end
  | IntervalFires =>
      match captureInterval (this w) with
      | Some _ => captureScreenFrame env w
      | None => w
      end
  | GrabFrameSettles i g sdkOk =>
      match pending w !! i with
      | Some (AwaitGrabFrame _) =>
          captureScreenFrame_grabbed env g sdkOk (set_pending (delete i (pending w)) w)
      | _ => w
      end
  | GenerateSettles i o =>
      match pending w !! i with
      | Some (AwaitGenerate _) =>
          clearSpeech
            (analyzeScreenAndSpeech_settled env o (set_pending (delete i (pending w)) w))
      | _ => w
      end
  | RecognizerResult id ev => deliver id onresult (onresultHandler ev) w
  | RecognizerError id error => deliver id onerror (onerrorHandler error) w
  | RecognizerEnds id => recognizerEnds id w
  | UtteranceEnds => utteranceLeaves uonend utteranceOnend w
  | UtteranceFails => utteranceLeaves uonerror utteranceOnerror w
  | SynthesisDrops => set_synthQueue [] w
  | ScreenTrackEnds => screenTrackEnds w
  end.

Definition run (env : Env) (w : World) (es : list Event) : World :=
  fold_left (step env) es w.

(** The worlds a session can be in. *)
Definition reachable (env : Env) (w : World) : Prop :=
  exists subject level es, w = run env (newSession env subject level) es.

(** ** The SDP helper of [initialize] *)

(** [s.startsWith(p)] *)
Fixpoint startsWith (p s : string) : bool :=
  match p with
  | EmptyString => true
  | String a p' =>
      match s with
      | EmptyString => false
      | String b s' => Ascii.eqb a b && startsWith p' s'
      end
  end.

Definition CR : ascii := ascii_of_nat 13.
Definition LF : ascii := ascii_of_nat 10.
Definition CRLF : string := String CR (String LF EmptyString).

(** The character [c] is put in front of the first piece. *)
Definition consHead (c : ascii) (pieces : list string) : list string :=
  match pieces with
  | [] => [String c EmptyString]
  | h :: t => String c h :: t
  end.

(** [s.split('\r\n')] *)
Fixpoint splitCRLF (s : string) : list string :=
  match s with
  | EmptyString => [EmptyString]
  | String c rest =>
      match rest with
      | String c2 rest2 =>
          if Ascii.eqb c CR && Ascii.eqb c2 LF then EmptyString :: splitCRLF rest2
          else consHead c (splitCRLF rest)
      | EmptyString => consHead c (splitCRLF rest)
      end
  end.

(** [lines.join('\r\n')] *)
Definition joinCRLF (lines : list string) : string := String.concat CRLF lines.

(** The [setup] attribute values the method accepts. *)
Inductive SetupValue := active | passive | actpass.

Definition setupText (v : SetupValue) : string :=
  match v with
  | active => "active"
  | passive => "passive"
  | actpass => "actpass"
  end.

Definition isMediaLine (l : string) : bool := startsWith "m=" l.
Definition isSetupLine (l : string) : bool := startsWith "a=setup:" l.
Definition isMidLine (l : string) : bool := startsWith "a=mid:" l.

(** The first loop: the index of the first line that starts with [m=]. *)
Fixpoint findMedia (lines : list string) : option nat :=
  match lines with
  | [] => None
  | l :: ls => if isMediaLine l then Some 0 else option_map S (findMedia ls)
  end.

(** The second loop, from index [i] on: the first line that starts with
    [a=setup:] is overwritten; [None] when there is none ([hasSetup] stays
    false). *)
Fixpoint replaceSetup (i : nat) (newLine : string) (lines : list string)
    : option (list string) :=
  match lines with
  | [] => None
  | l :: ls =>
      match i with
      | S i' => option_map (cons l) (replaceSetup i' newLine ls)
      | 0 =>
          if isSetupLine l then Some (newLine :: ls)
          else option_map (cons l) (replaceSetup 0 newLine ls)
      end
  end.

(** The third loop, from index [i] on: the new line is spliced in after the
    first line that starts with [a=mid:]. *)
Fixpoint insertSetup (i : nat) (newLine : string) (lines : list string) : list string :=
  match lines with
  | [] => []
  | l :: ls =>
      match i with
      | S i' => l :: insertSetup i' newLine ls
      | 0 =>
          if isMidLine l then l :: newLine :: ls
          else l :: insertSetup 0 newLine ls
      end
  end.

(** The two loops together. *)
Definition setSetupLines (mediaIndex : nat) (newLine : string) (lines : list string)
    : list string :=
  match replaceSetup mediaIndex newLine lines with
  | Some lines' => lines'
  | None => insertSetup mediaIndex newLine lines
  end.

Definition setupLine (v : SetupValue) : string := "a=setup:" +:+ setupText v.

Definition setSdpSetupAttribute (sdp : string) (setupValue : SetupValue) : string :=
  let lines := splitCRLF sdp in
  match findMedia lines with
  | None => sdp
  | Some mediaIndex => joinCRLF (setSetupLines mediaIndex (setupLine setupValue) lines)
  end.

(** * Vocabulary of the properties *)

(** ** Browsers and acquisitions *)

(** A browser with every API present and an API key configured. *)
Definition fullBrowser : Env :=
  {| API_KEY := Some "key"; hasWindow := true; hasSpeechRecognition := true;
     hasImageCapture := true; hasSpeechSynthesis := true; hasMediaDevices := true |}.

(** The same browser without [ImageCapture]. *)
Definition noCaptureBrowser : Env :=
  {| API_KEY := Some "key"; hasWindow := true; hasSpeechRecognition := true;
     hasImageCapture := false; hasSpeechSynthesis := true; hasMediaDevices := true |}.

(** The three single-modality configurations of [startMediaStream]. *)
Definition audioOnly : Config.MediaStreamConfig :=
  {| Config.audio := true; Config.video := false; Config.screen := false |}.

Definition videoOnly : Config.MediaStreamConfig :=
  {| Config.audio := false; Config.video := true; Config.screen := false |}.

Definition screenOnly : Config.MediaStreamConfig :=
  {| Config.audio := false; Config.video := false; Config.screen := true |}.

(** Granted streams: a camera and a display surface with one live video
    track each, a microphone with one live audio track. *)
Definition camera : Acquired := Granted [liveVideoTrack].

Definition display : Acquired := Granted [liveVideoTrack].

Definition microphone : Acquired := Granted [liveAudioTrack].

(** One recognition event carrying a single result. *)
Definition heard (final : bool) (t : string) : ResultEvent :=
  {| resultIndex := 0; results := [{| transcript := t; isFinal := final |}] |}.

(** The data URL of an encoded frame. *)
Definition frameUrl : string := "data:image/jpeg;base64,FRAME".

(** ** Scenarios *)

Definition algebraSession (env : Env) : World := newSession env "algebra" "beginner".

(** The microphone is switched on and the three timers of the safe start
    run: recogniser 0, made by the constructor, is discarded and recogniser 1
    is created and started. *)
Definition listening : list Event :=
  [CallStartMediaStream audioOnly microphone camera display;
   TimerFires 0; TimerFires 0; TimerFires 0].

Definition listeningSession : World :=
  run fullBrowser (algebraSession fullBrowser) listening.

(** The camera is started. *)
Definition cameraOn : World :=
  run fullBrowser (algebraSession fullBrowser)
    [CallStartMediaStream videoOnly microphone camera display].

(** The camera is started, then the screen share. *)
Definition cameraThenScreen : World :=
  run fullBrowser (algebraSession fullBrowser)
    [CallStartMediaStream videoOnly microphone camera display;
     CallStartMediaStream screenOnly microphone camera display].

(** The learner asks a question, then shares the screen. *)
Definition spokenThenShared : list Event :=
  (listening ++
   [RecognizerResult 1 (heard true "what is a variable");
    CallStartMediaStream screenOnly microphone camera display])%list.

(** The interval then fires. *)
Definition tickWithCapture : World :=
  run fullBrowser (algebraSession fullBrowser) (spokenThenShared ++ [IntervalFires])%list.

(** The frame is grabbed and the request for the question goes out. *)
Definition requestInFlight : World :=
  step fullBrowser tickWithCapture (GrabFrameSettles 0 (Grabbed frameUrl) true).

(** The request is rejected. *)
Definition requestFailed : World :=
  step fullBrowser requestInFlight (GenerateSettles 0 Rejected).

(** The request is answered instead. *)
Definition firstTurnDone : World :=
  step fullBrowser requestInFlight (GenerateSettles 0 (Replied "A variable names a value.")).

(** A second question, asked once the first turn is complete. *)
Definition secondRequest : World :=
  run fullBrowser firstTurnDone
    [RecognizerResult 1 (heard true "and a constant");
     IntervalFires;
     GrabFrameSettles 0 (Grabbed "data:image/jpeg;base64,FRAME2") true].

(** A second tick fires while the first request is still in flight. *)
Definition secondTickInFlight : World :=
  run fullBrowser requestInFlight
    [IntervalFires; GrabFrameSettles 1 (Grabbed "data:image/jpeg;base64,FRAME2") true].

(** The learner said a sentence and is in the middle of the next one. *)
Definition heardInterim : World :=
  run fullBrowser (algebraSession fullBrowser)
    (listening ++ [RecognizerResult 1 (heard true "what is a variable");
                   RecognizerResult 1 (heard false "and a con")])%list.

(** A recogniser ends, then the three timers of the restart run, each being
    the last one scheduled. *)
Definition restartTrace (id n : nat) : list Event :=
  [RecognizerEnds id; TimerFires n; TimerFires n; TimerFires n].

(** The listening session whose recogniser ended, after the restart timer
    and the creation timer have run. *)
Definition recreated : World :=
  run fullBrowser (algebraSession fullBrowser)
    (listening ++ [RecognizerEnds 1; TimerFires 0; TimerFires 0])%list.

(** ** Observations *)

(** The value of a visual flag after a start: set on success, kept on failure. *)
Definition flagAfterStart (available : bool) (r : Acquired) (before : bool) : bool :=
  match r with
  | Granted s => if available && List.existsb isVideo s then true else before
  | Denied _ => before
  end.

(** The interval timer after [startScreenStream]. *)
Definition intervalAfterScreenStart (r : Acquired) (before : option nat) : option nat :=
  match r with
  | Granted s => if List.existsb isVideo s then Some capturePeriod else before
  | Denied _ => before
  end.

(** The request ended without a reply. *)
Definition failed (o : GenerateOutcome) : bool :=
  match o with
  | Replied _ => false
  | Rejected | Malformed => true
  end.

(** The request [analyzeScreenAndSpeech] passes to [generateContent]. *)
Definition requestOf (subject level imageData speechText : string) : list Part :=
  [text (systemPrompt subject level);
   text (if truthy speechText then questionMessage speechText else defaultUserMessage);
   inlineData imageData "image/jpeg"].

(** [speakResponse] has an effect when the session holds an utterance object
    and the browser has a synthesiser. *)
Definition canSpeak (env : Env) (w : World) : bool :=
  match speechSynthesis (this w) with
  | Some _ => hasWindow env && hasSpeechSynthesis env
  | None => false
  end.

(** A world without its record of what was emitted. *)
Definition withoutLog (w : World) : World := set_emitted [] w.

(** The last message handed to the subscribers. *)
Definition lastMessage (log : list Emitted) : option SessionMessage :=
  fold_left (fun acc e => match e with OnMessage m => Some m | OnStateChange _ => acc end)
            log None.



(** A tick of the interval would ask for a frame of [track]: the browser has
    [ImageCapture], the interval runs, the share is active and [track] is the
    first video track of the screen stream. *)
Definition sampling (env : Env) (w : World) (track : MediaStreamTrack) : Prop :=
  hasWindow env = true
  /\ hasImageCapture env = true
  /\ captureInterval (this w) <> None
  /\ isScreenActive (state (this w)) = true
  /\ exists s, localScreenStream (this w) = Some s /\ head (getVideoTracks s) = Some track.





(** ** Invariants *)

(** The part of the world the engine and the synthesiser work on. *)
Definition core (w : World) : list Utterance * list Pending * bool :=
  (synthQueue w, pending w, isProcessing (state (this w))).

(** A [generateContent] request is in flight. *)
Definition generating (w : World) : Prop :=
  exists rq, In (AwaitGenerate rq) (pending w).

(** What holds in every world a session can be in: the synthesiser holds at
    most one utterance, the processing flag is set only while a request is in
    flight, and without an API key no request is ever in flight. *)
Definition sessionInv (env : Env) (w : World) : Prop :=
  length (synthQueue w) <= 1
  /\ (isProcessing (state (this w)) = true -> generating w)
  /\ (noApiKey env = true -> ~ generating w).

(** ** Tactics *)

(** Case analysis on the innermost scrutinee of the goal. *)
Ltac break_match :=
  match goal with
  | |- context [match ?x with _ => _ end] =>
      lazymatch x with
      | context [match _ with _ => _ end] => fail
      | _ => destruct x eqn:?
      end
  end.

Ltac frame := repeat break_match; reflexivity.

(** The three components of an equation between [core]s. *)
Ltac core_eqs H Hq Hp Hf :=
  pose proof (f_equal (fun c => fst (fst c)) H) as Hq;
  pose proof (f_equal (fun c => snd (fst c)) H) as Hp;
  pose proof (f_equal snd H) as Hf;
  cbn [fst snd core] in Hq, Hp, Hf.

(** ** Lines, logs and advisories *)

(** A line holds no line break. *)
Fixpoint hasCRLF (s : string) : bool :=
  match s with
  | EmptyString => false
  | String c rest =>
      match rest with
      | String c2 _ => (Ascii.eqb c CR && Ascii.eqb c2 LF) || hasCRLF rest
      | EmptyString => false
      end
  end.

Definition clean (l : string) : Prop := hasCRLF l = false.

(** The text holds a comma. *)
Fixpoint hasComma (s : string) : bool :=
  match s with
  | EmptyString => false
  | String c rest => Ascii.eqb c comma || hasComma rest
  end.

(** The messages among what was emitted, oldest first. *)
Definition messagesOf (log : list Emitted) : list SessionMessage :=
  flat_map (fun e => match e with OnMessage m => [m] | OnStateChange _ => [] end) log.

(** An offer with a session-level and a media-level [a=setup:] line. *)
Definition offerSdp : string :=
  "v=0" +:+ CRLF +:+ "a=setup:passive" +:+ CRLF +:+ "m=audio 9 UDP/TLS/RTP/SAVPF 111"
  +:+ CRLF +:+ "a=mid:0" +:+ CRLF +:+ "a=setup:actpass" +:+ CRLF.

(** A description whose only [a=setup:] line stands before the media line. *)
Definition bareMediaSdp : string :=
  "v=0" +:+ CRLF +:+ "a=setup:actpass" +:+ CRLF +:+ "m=audio 9 RTP/AVP 0"
  +:+ CRLF +:+ "c=IN IP4 0.0.0.0".

(** From [w] to [w'] nothing happened but [k] advisory messages: flags,
    timers, promises and recognisers are the same, and what was emitted is
    [k] messages of type [system-info]. *)
Definition advised (k : nat) (w w' : World) : Prop :=
  state (this w') = state (this w)
  /\ timers w' = timers w
  /\ pending w' = pending w
  /\ recognizers w' = recognizers w
  /\ speechRecognition (this w') = speechRecognition (this w)
  /\ localAudioStream (this w') = localAudioStream (this w)
  /\ exists ms,
       emitted w' = (emitted w ++ List.map OnMessage ms)%list
       /\ length ms = k
       /\ Forall (fun m => mtype m = system_info) ms.

(** The number of advisories a denied microphone produces through
    [startMediaStream]: the one of [startAudioStream] for a permission error,
    and the one of the caller. *)
Definition microphoneAdvisories (e : MediaError) : nat :=
  match e with
  | NotAllowedError => 2
  | OtherError _ => 1
  end.

Definition attempts (asked active : bool) : bool := asked && negb active.

(** ** Released capabilities *)

(** The recogniser store once the referenced instance, if any, has had its
    handlers detached and has been stopped. *)
Definition releaseRecognizer (w : World) : list SpeechRecognition :=
  match speechRecognition (this w) with
  | Some id => alter (setRunning false) id (alter detachHandlers id (recognizers w))
  | None => recognizers w
  end.

(** No video track of the stream is live. *)
Definition videoEnded (s : MediaStream) : Prop :=
  Forall (fun t => isVideo t = true -> isLive t = false) s.

(** The stream has a live video track. *)
Definition hasLiveVideo (s : MediaStream) : bool :=
  List.existsb (fun t => isVideo t && isLive t) s.

(** Case analysis on the optional fields the stop methods test. *)
Ltac stop_cases w :=
  let t := fresh "t" in
  destruct w as [t ? ? ? ? ? ? ?];
  destruct t as [[?|] [?|] [?|] [?|] ? ? ? ? ? [?|] ?];
  cbn.

(** ** The dialogue *)

Definition isRole (r : Role) (m : HistoryMessage) : bool :=
  match r, role m with
  | user, user | model, model | tutor, tutor | system, system => true
  | _, _ => false
  end.

(** The number of history entries of a role. *)
Definition entries (r : Role) (h : list HistoryMessage) : nat :=
  length (List.filter (isRole r) h).

Definition isAwaitGenerate (p : Pending) : bool :=
  match p with
  | AwaitGenerate _ => true
  | AwaitGrabFrame _ => false
  end.

(** The number of requests in flight. *)
Definition awaited (ps : list Pending) : nat :=
  length (List.filter isAwaitGenerate ps).

(** The entry the constructor puts into the history. *)
Definition systemEntry (subject level : string) : HistoryMessage :=
  {| role := system; content := systemMessage subject level |}.

(** The part of the world the dialogue with the model lives in. *)
Definition dialogue (w : World)
    : list HistoryMessage * string * string * list (list Part) * list Pending :=
  (messageHistory (this w), subject (this w), level (this w), requests w, pending w).

(** What holds of the dialogue in every world of a session created for
    [subject0] and [level0]. *)
Definition dialogueInv (env : Env) (subject0 level0 : string) (w : World) : Prop :=
  subject (this w) = subject0
  /\ level (this w) = level0
  /\ head (messageHistory (this w)) = Some (systemEntry subject0 level0)
  /\ entries system (messageHistory (this w)) = 1
  /\ entries model (messageHistory (this w)) = 0
  /\ entries user (messageHistory (this w)) = length (requests w)
  /\ entries tutor (messageHistory (this w)) + awaited (pending w) <= length (requests w)
  /\ (noApiKey env = true -> requests w = []).

(** A browser with every API present but no API key configured. *)
Definition keylessBrowser : Env :=
  {| API_KEY := None; hasWindow := true; hasSpeechRecognition := true;
     hasImageCapture := true; hasSpeechSynthesis := true; hasMediaDevices := true |}.

(** A question is asked, the screen is shared, a tick fires and its frame is
    grabbed. *)
Definition askedAndSampled : list Event :=
  (spokenThenShared ++ [IntervalFires; GrabFrameSettles 0 (Grabbed frameUrl) true])%list.

(** * Properties *)

(** ** Runs and reachability *)


Lemma fold_left_app_one {A B} (f : A -> B -> A) (l : list B) (x : B) (a : A) :
  fold_left f (l ++ [x])%list a = f (fold_left f l a) x.
Proof. rewrite fold_left_app. reflexivity. Qed.



Lemma reachable_step env w e : reachable env w -> reachable env (step env w e).
Proof.
  intros (subject & level & es & ->).
  exists subject, level, (es ++ [e])%list. unfold run. now rewrite fold_left_app_one.
Qed.


(** Induction over the worlds a session can be in. *)
Lemma reachable_ind (env : Env) (P : World -> Prop) :
  (forall subject level, P (newSession env subject level)) ->
  (forall w e, reachable env w -> P w -> P (step env w e)) ->
  forall w, reachable env w -> P w.
Proof.
  intros Hnew Hstep w (subject & level & es & ->).
  induction es as [|e es IH] using rev_ind.
  - apply Hnew.
  - unfold run in *. rewrite fold_left_app_one.
    apply Hstep; [|exact IH].
    exists subject, level, es. reflexivity.
Qed.

(** ** What each operation does to the synthesiser queue, the pending
       promises and the processing flag *)

Lemma In_delete {A} (x : A) (i : nat) (l : list A) : In x (delete i l) -> In x l.
Proof.
  revert i. induction l as [|y l IH]; intros [|i]; cbn; auto.
  intros [->|H]; [now left|right; eauto].
Qed.

Lemma In_delete_other {A} (x y : A) (i : nat) (l : list A) :
  l !! i = Some y -> x <> y -> In x l -> In x (delete i l).
Proof.
  revert i. induction l as [|z l IH]; intros [|i]; cbn; try discriminate.
  - intros [= ->] Hne [Heq|Hin]; [congruence|exact Hin].
  - intros Hi Hne [Heq|Hin]; [now left|right; eauto].
Qed.

Lemma core_startAudioStream r w : core (fst (startAudioStream r w)) = core w.
Proof. unfold startAudioStream. frame. Qed.

Lemma core_startVideoStream env r w : core (fst (startVideoStream env r w)) = core w.
Proof. unfold startVideoStream, cameraCatch. frame. Qed.

Lemma core_startScreenStream r w : core (fst (startScreenStream r w)) = core w.
Proof. unfold startScreenStream, screenCatch. frame. Qed.

Lemma core_tryStartAudio config ra w : core (tryStartAudio config ra w) = core w.
Proof.
  unfold tryStartAudio. destruct (_ && _); [|reflexivity].
  pose proof (core_startAudioStream ra w) as H.
  destruct (startAudioStream ra w) as [w' [e|]]; exact H.
Qed.

Lemma core_startMediaStream env config ra rv rs w :
  core (startMediaStream env config ra rv rs w) = core w.
Proof.
  unfold startMediaStream, tryStartCapture, tryStartScreen, tryStartVideo.
  destruct (Config.screen config && isScreenActive _);
    [change (core (startScreenCapture ?x)) with (core x)|];
    (destruct (Config.screen config && negb _); [rewrite core_startScreenStream|]);
    (destruct (Config.video config && negb _); [rewrite core_startVideoStream|]);
    apply core_tryStartAudio.
Qed.

Lemma core_stopAudioStream w : core (stopAudioStream w) = core w.
Proof. unfold stopAudioStream. frame. Qed.

Lemma core_stopVideoStream w : core (stopVideoStream w) = core w.
Proof. unfold stopVideoStream. frame. Qed.

Lemma core_stopScreenStream w : core (stopScreenStream w) = core w.
Proof. unfold stopScreenStream. frame. Qed.

Lemma core_safeStartSpeechRecognition env w : core (safeStartSpeechRecognition env w) = core w.
Proof. unfold safeStartSpeechRecognition. frame. Qed.

Lemma core_restartRecognition env w : core (restartRecognition env w) = core w.
Proof.
  unfold restartRecognition. destruct (isAudioActive _); [|reflexivity].
  apply core_safeStartSpeechRecognition.
Qed.

Lemma core_createRecognition env w : core (createRecognition env w) = core w.
Proof. unfold createRecognition. frame. Qed.

Lemma core_startRecognition w : core (startRecognition w) = core w.
Proof. unfold startRecognition. frame. Qed.

Lemma core_speakCheck w : core (speakCheck w) = core w.
Proof. unfold speakCheck. frame. Qed.

Lemma core_runTimer env cb w : core (runTimer env cb w) = core w.
Proof.
  destruct cb; cbn [runTimer];
    auto using core_restartRecognition, core_createRecognition, core_startRecognition,
      core_speakCheck.
Qed.

Lemma core_onresultHandler ev w : core (onresultHandler ev w) = core w.
Proof. unfold onresultHandler. frame. Qed.

Lemma core_onerrorHandler error w : core (onerrorHandler error w) = core w.
Proof. unfold onerrorHandler. frame. Qed.

Lemma core_onendHandler w : core (onendHandler w) = core w.
Proof. unfold onendHandler. frame. Qed.

Lemma core_deliver id attached handler w :
  (forall w', core (handler w') = core w') -> core (deliver id attached handler w) = core w.
Proof. intros H. unfold deliver. repeat break_match; auto. Qed.

Lemma core_recognizerEnds id w : core (recognizerEnds id w) = core w.
Proof.
  unfold recognizerEnds. repeat break_match; try reflexivity.
  rewrite core_onendHandler. reflexivity.
Qed.

Lemma core_screenTrackEnds w : core (screenTrackEnds w) = core w.
Proof. unfold screenTrackEnds. repeat break_match; auto using core_stopScreenStream. Qed.

Lemma speakResponse_core env t w :
  core (speakResponse env t w)
  = (if canSpeak env w then [newUtterance t] else synthQueue w,
     pending w, isProcessing (state (this w))).
Proof.
  unfold speakResponse, canSpeak.
  destruct (speechSynthesis (this w)), (hasWindow env), (hasSpeechSynthesis env); reflexivity.
Qed.

Lemma speakResponse_synthQueue env t w :
  synthQueue (speakResponse env t w)
  = if canSpeak env w then [newUtterance t] else synthQueue w.
Proof. exact (f_equal (fun c => fst (fst c)) (speakResponse_core env t w)). Qed.

Lemma analyzeScreenAndSpeech_core env imageData speechText sdkOk w :
  core (fst (analyzeScreenAndSpeech env imageData speechText sdkOk w))
  = if noApiKey env then core w
    else if sdkOk
         then (synthQueue w,
               (pending w
                ++ [AwaitGenerate (requestOf (subject (this w)) (level (this w))
                                             imageData speechText)])%list,
               true)
         else (synthQueue w, pending w, false).
Proof.
  unfold analyzeScreenAndSpeech, requestOf.
  destruct (noApiKey env); [reflexivity|].
  destruct sdkOk; [|reflexivity]. cbn [negb fst].
  destruct (truthy speechText); reflexivity.
Qed.

Lemma analyzeScreenAndSpeech_suspends env imageData speechText sdkOk w :
  snd (analyzeScreenAndSpeech env imageData speechText sdkOk w)
  = negb (noApiKey env) && sdkOk.
Proof. unfold analyzeScreenAndSpeech. destruct (noApiKey env), sdkOk; reflexivity. Qed.

Lemma analyzeScreenAndSpeech_settled_core env o w :
  core (analyzeScreenAndSpeech_settled env o w)
  = (match o with
     | Replied t => if canSpeak env w then [newUtterance t] else synthQueue w
     | _ => synthQueue w
     end, pending w, false).
Proof.
  unfold analyzeScreenAndSpeech_settled. destruct o as [t| |]; try reflexivity.
  unfold core, updateState. cbn.
  pose proof (speakResponse_core env t
                (sendMessage {| mtype := tutor_message; mcontent := t; minterim := None |}
                   (pushHistory {| role := tutor; content := t |} w))) as H.
  pose proof (f_equal (fun c => fst (fst c)) H) as Hq.
  pose proof (f_equal (fun c => snd (fst c)) H) as Hp.
  cbn [fst snd core] in Hq, Hp. rewrite Hq, Hp. reflexivity.
Qed.

Lemma captureScreenFrame_core env w :
  core (captureScreenFrame env w) = core w
  \/ exists track,
       core (captureScreenFrame env w)
       = (synthQueue w, (pending w ++ [AwaitGrabFrame track])%list,
          isProcessing (state (this w))).
Proof. unfold captureScreenFrame. repeat break_match; eauto. Qed.

Lemma captureScreenFrame_grabbed_core env g sdkOk w :
  core (captureScreenFrame_grabbed env g sdkOk w) = core w
  \/ (noApiKey env = false
      /\ exists rq,
           core (captureScreenFrame_grabbed env g sdkOk w)
           = (synthQueue w, (pending w ++ [AwaitGenerate rq])%list, true))
  \/ core (captureScreenFrame_grabbed env g sdkOk w) = (synthQueue w, pending w, false).
Proof.
  unfold captureScreenFrame_grabbed.
  destruct g as [url|]; [|now left].
  destruct (base64Of url) as [b|]; [|now left].
  destruct (negb (truthy b)); [now left|].
  destruct (truthy (speechToTextResult (this w))); [|now left].
  pose proof (analyzeScreenAndSpeech_core env b (speechToTextResult (this w)) sdkOk w) as Hc.
  pose proof (analyzeScreenAndSpeech_suspends env b (speechToTextResult (this w)) sdkOk w) as Hs.
  destruct (analyzeScreenAndSpeech env b (speechToTextResult (this w)) sdkOk w) as [w' s].
  cbn [fst snd] in Hc, Hs. subst s.
  destruct (noApiKey env); cbn [negb andb]; [now left|].
  destruct sdkOk; cbn [andb].
  - right; left. split; [reflexivity|]. eexists. exact Hc.
  - right; right. exact Hc.
Qed.

(** ** Invariants of the reachable worlds *)

Lemma sessionInv_core env w w' : core w' = core w -> sessionInv env w -> sessionInv env w'.
Proof.
  unfold core, sessionInv, generating. intros [= Hq Hp Hf]. rewrite Hq, Hp, Hf. tauto.
Qed.

Lemma generating_delete_grab i track w :
  pending w !! i = Some (AwaitGrabFrame track) ->
  generating (set_pending (delete i (pending w)) w) <-> generating w.
Proof.
  intros Hi. unfold generating. cbn. split; intros [rq Hin]; exists rq.
  - eapply In_delete, Hin.
  - eapply In_delete_other; [exact Hi|discriminate|exact Hin].
Qed.

Lemma sessionInv_step env w e : sessionInv env w -> sessionInv env (step env w e).
Proof.
  intros Hinv. destruct e; cbn [step].
  - eapply sessionInv_core, Hinv. apply core_startMediaStream.
  - eapply sessionInv_core, Hinv. apply core_stopAudioStream.
  - eapply sessionInv_core, Hinv. apply core_stopVideoStream.
  - eapply sessionInv_core, Hinv. apply core_stopScreenStream.
  - (* close *)
    assert (Hstops : core (stopScreenStream (stopVideoStream (stopAudioStream w))) = core w).
    { now rewrite core_stopScreenStream, core_stopVideoStream, core_stopAudioStream. }
    pose proof (sessionInv_core env _ _ Hstops Hinv) as (Hq & Hp & Hk).
    unfold close. destruct (negb (hasWindow env)); [repeat split; assumption|].
    repeat split.
    + destruct (hasSpeechSynthesis env); cbn; [lia|exact Hq].
    + cbn. discriminate.
    + destruct (hasSpeechSynthesis env); exact Hk.
  - (* a timer *)
    destruct (timers w !! i) as [t|]; [|exact Hinv].
    eapply sessionInv_core, Hinv. now rewrite core_runTimer.
  - (* the interval *)
    destruct (captureInterval (this w)); [|exact Hinv].
    destruct (captureScreenFrame_core env w) as [Hc|[track Hc]].
    + eapply sessionInv_core, Hinv. exact Hc.
    + destruct Hinv as (Hq & Hp & Hk). core_eqs Hc Hq' Hp' Hf'.
      unfold sessionInv, generating. rewrite Hq', Hp', Hf'. repeat split; [exact Hq| |].
      * intros Ht. destruct (Hp Ht) as [rq Hin]. exists rq. apply in_or_app. now left.
      * intros Hno [rq Hin]. apply (Hk Hno). exists rq.
        apply in_app_or in Hin as [Hin|Hin]; [exact Hin|].
        destruct Hin as [Heq|[]]. discriminate.
  - (* the frame promise *)
    destruct (pending w !! i) as [[track|rq]|] eqn:Hi; try exact Hinv.
    set (w0 := set_pending (delete i (pending w)) w).
    assert (Hinv0 : sessionInv env w0).
    { destruct Hinv as (Hq & Hp & Hk). repeat split; [exact Hq| |].
      - intros Ht. apply (generating_delete_grab i track w Hi). apply Hp, Ht.
      - intros Hno Hg. apply (Hk Hno). now apply (generating_delete_grab i track w Hi). }
    destruct (captureScreenFrame_grabbed_core env g sdkOk w0) as [Hc|[[Hkey [rq Hc]]|Hc]].
    + eapply sessionInv_core, Hinv0. exact Hc.
    + destruct Hinv0 as (Hq & Hp & Hk). core_eqs Hc Hq' Hp' Hf'.
      unfold sessionInv, generating. rewrite Hq', Hp'. repeat split; [exact Hq| |].
      * intros _. exists rq. apply in_or_app. right. now left.
      * rewrite Hkey. discriminate.
    + destruct Hinv0 as (Hq & Hp & Hk). core_eqs Hc Hq' Hp' Hf'.
      unfold sessionInv, generating. rewrite Hq', Hp', Hf'. repeat split; [exact Hq| |exact Hk].
      discriminate.
  - (* the request *)
    destruct (pending w !! i) as [[track|rq]|] eqn:Hi; try exact Hinv.
    set (w0 := set_pending (delete i (pending w)) w).
    pose proof (analyzeScreenAndSpeech_settled_core env o w0) as Hc.
    destruct Hinv as (Hq & Hp & Hk). core_eqs Hc Hq' Hp' Hf'.
    apply (sessionInv_core env (analyzeScreenAndSpeech_settled env o w0)); [reflexivity|].
    unfold sessionInv, generating. rewrite Hq', Hp', Hf'. repeat split.
    + destruct o; try exact Hq. destruct (canSpeak env w0); [cbn; lia|exact Hq].
    + discriminate.
    + intros Hno [rq' Hin]. apply (Hk Hno). exists rq'. eapply In_delete, Hin.
  - eapply sessionInv_core, Hinv. apply core_deliver, core_onresultHandler.
  - eapply sessionInv_core, Hinv. apply core_deliver, core_onerrorHandler.
  - eapply sessionInv_core, Hinv. apply core_recognizerEnds.
  - (* the utterance ends *)
    destruct Hinv as (Hq & Hp & Hk). unfold utteranceLeaves.
    destruct (synthQueue w) as [|u rest] eqn:Hsq; [repeat split; [rewrite Hsq; cbn; lia|assumption..]|].
    cbn in Hq. destruct (uonend u); repeat split; cbn; try lia; assumption.
  - destruct Hinv as (Hq & Hp & Hk). unfold utteranceLeaves.
    destruct (synthQueue w) as [|u rest] eqn:Hsq; [repeat split; [rewrite Hsq; cbn; lia|assumption..]|].
    cbn in Hq. destruct (uonerror u); repeat split; cbn; try lia; assumption.
  - destruct Hinv as (Hq & Hp & Hk). repeat split; cbn; try lia; assumption.
  - eapply sessionInv_core, Hinv. apply core_screenTrackEnds.
Qed.

Lemma sessionInv_reachable env w : reachable env w -> sessionInv env w.
Proof.
  apply reachable_ind.
  - intros subject level. repeat split; cbn; try lia; try discriminate.
    intros _ [rq []].
  - intros w0 e _ Hinv. now apply sessionInv_step.
Qed.

(** ** C1: the two visual modalities *)

(** C1, counterexample: after [startMediaStream({video})] and then
    [startMediaStream({screen})] have both succeeded, both visual flags are
    true and the camera track is still live. *)
Lemma both_visual_flags_true :
  isVideoActive (state (this cameraThenScreen)) = true
  /\ isScreenActive (state (this cameraThenScreen)) = true
  /\ localVideoStream (this cameraThenScreen) = Some [liveVideoTrack].
Proof. repeat split; reflexivity. Qed.

Lemma getVideoTracks_nil s : getVideoTracks s = [] -> List.existsb isVideo s = false.
Proof.
  unfold getVideoTracks. induction s as [|t s IH]; [reflexivity|].
  cbn. destruct (isVideo t); [discriminate|]. exact IH.
Qed.

Lemma getVideoTracks_cons s t ts : getVideoTracks s = t :: ts -> List.existsb isVideo s = true.
Proof.
  unfold getVideoTracks. induction s as [|x s IH]; [discriminate|].
  cbn. destruct (isVideo x); [reflexivity|]. exact IH.
Qed.

(** C1, amended: a start call leaves the flag and the stream of the other
    visual modality exactly as they were, and sets its own flag when the
    acquisition yields a video track. *)
Theorem start_leaves_other_visual_modality :
  forall env r w,
    (isScreenActive (state (this (fst (startVideoStream env r w)))) = isScreenActive (state (this w))
     /\ localScreenStream (this (fst (startVideoStream env r w))) = localScreenStream (this w)
     /\ isVideoActive (state (this (fst (startVideoStream env r w))))
        = flagAfterStart (hasMediaDevices env) r (isVideoActive (state (this w))))
    /\ (isVideoActive (state (this (fst (startScreenStream r w)))) = isVideoActive (state (this w))
        /\ localVideoStream (this (fst (startScreenStream r w))) = localVideoStream (this w)
        /\ isScreenActive (state (this (fst (startScreenStream r w))))
           = flagAfterStart true r (isScreenActive (state (this w)))).
Proof.
  intros env r w. split.
  - unfold startVideoStream, cameraCatch, flagAfterStart.
    destruct (localVideoStream (this w)) as [old|], (hasMediaDevices env), r as [s|[|msg]]; cbn;
      try (repeat split; reflexivity);
      destruct (getVideoTracks s) eqn:E; cbn;
      first [rewrite (getVideoTracks_nil _ E) | rewrite (getVideoTracks_cons _ _ _ E)];
      repeat split; reflexivity.
  - unfold startScreenStream, screenCatch, flagAfterStart.
    destruct (localScreenStream (this w)) as [old|], r as [s|[|msg]]; cbn;
      try (repeat split; reflexivity);
      destruct (getVideoTracks s) eqn:E; cbn;
      first [rewrite (getVideoTracks_nil _ E) | rewrite (getVideoTracks_cons _ _ _ E)];
      repeat split; reflexivity.
Qed.

(** ** C2: a failed request and the history *)

(** C2, counterexample: after the request is rejected the history is no
    longer what it was before the attempt; it holds the user entry of the
    failed turn. *)
Lemma failed_turn_stays_in_history :
  messageHistory (this requestFailed)
  = (messageHistory (this tickWithCapture)
     ++ [{| role := user; content := questionMessage "what is a variable" |}])%list
  /\ messageHistory (this requestFailed) <> messageHistory (this tickWithCapture).
Proof.
  split; [vm_compute; reflexivity|].
  intros H. apply (f_equal (@List.length _)) in H. vm_compute in H. discriminate.
Qed.

(** C2, amended: the call appends the user entry before it sends the
    request; when the request fails, nothing more is appended (no tutor
    entry), exactly one advisory message is emitted, followed by the state
    change that resets [isProcessing], and a following call sends its request
    again. *)
Theorem failed_request_keeps_user_entry :
  forall env imageData speechText o w,
    noApiKey env = false ->
    truthy speechText = true ->
    failed o = true ->
    (messageHistory (this (fst (analyzeScreenAndSpeech env imageData speechText true w)))
     = (messageHistory (this w)
        ++ [{| role := user; content := questionMessage speechText |}])%list
     /\ snd (analyzeScreenAndSpeech env imageData speechText true w) = true)
    /\ (forall w',
          messageHistory (this (analyzeScreenAndSpeech_settled env o w'))
          = messageHistory (this w')
          /\ emitted (analyzeScreenAndSpeech_settled env o w')
             = (emitted w'
                ++ [OnMessage (systemInfo analysisFailed);
                    OnStateChange (setFlag IsProcessing false (state (this w')))])%list
          /\ isProcessing (state (this (analyzeScreenAndSpeech_settled env o w'))) = false
          /\ forall imageData' speechText',
               snd (analyzeScreenAndSpeech env imageData' speechText' true
                      (analyzeScreenAndSpeech_settled env o w')) = true).
Proof.
  intros env img sp o w Hkey Hsp Ho. split.
  - unfold analyzeScreenAndSpeech. rewrite Hkey, Hsp. split; reflexivity.
  - intros w'. unfold analyzeScreenAndSpeech.
    destruct o; [discriminate| |]; rewrite Hkey;
      (split; [reflexivity|]); (split; [|split; reflexivity]);
      unfold analyzeScreenAndSpeech_settled, updateState, sendMessage; cbn;
      rewrite <- List.app_assoc; reflexivity.
Qed.

(** C2, witness: the rejected request of the algebra session. *)
Lemma failed_request_keeps_user_entry_witness :
  noApiKey fullBrowser = false
  /\ truthy "what is a variable" = true
  /\ failed Rejected = true
  /\ messageHistory (this (analyzeScreenAndSpeech_settled fullBrowser Rejected requestInFlight))
     = messageHistory (this requestInFlight).
Proof.
  split; [reflexivity|]. split; [reflexivity|]. split; [reflexivity|].
  destruct (failed_request_keeps_user_entry fullBrowser "FRAME" "what is a variable" Rejected
              tickWithCapture eq_refl eq_refl eq_refl) as [_ Hsettled].
  destruct (Hsettled requestInFlight) as [Hhistory _]. exact Hhistory.
Defined.

(** ** C3: what the request carries *)

Lemma analyzeScreenAndSpeech_requests env imageData speechText sdkOk w :
  requests (fst (analyzeScreenAndSpeech env imageData speechText sdkOk w))
  = if noApiKey env || negb sdkOk then requests w
    else (requests w
          ++ [requestOf (subject (this w)) (level (this w)) imageData speechText])%list.
Proof.
  unfold analyzeScreenAndSpeech, requestOf.
  destruct (noApiKey env); [reflexivity|].
  destruct sdkOk; [|reflexivity]. cbn.
  destruct (truthy speechText); reflexivity.
Qed.

(** C3: with a completed first turn in the history, the request sent for the
    second question holds the instructions with subject and level, the new
    question and the frame, and nothing of the earlier turns, although the
    history converted for the chat session holds them; in general the request
    is the same whatever the history. *)
Theorem request_omits_history :
  List.map role (messageHistory (this firstTurnDone)) = [system; user; tutor]
  /\ List.map crole (convertToGeminiHistory (messageHistory (this firstTurnDone)))
     = [user; user; model]
  /\ requests secondRequest
     = [requestOf "algebra" "beginner" "FRAME" "what is a variable";
        requestOf "algebra" "beginner" "FRAME2" "and a constant"]
  /\ forall env imageData speechText sdkOk w h,
       requests (fst (analyzeScreenAndSpeech env imageData speechText sdkOk
                        (onThis (set_messageHistory h) w)))
       = requests (fst (analyzeScreenAndSpeech env imageData speechText sdkOk w)).
Proof.
  split; [reflexivity|]. split; [reflexivity|]. split; [reflexivity|].
  intros. rewrite !analyzeScreenAndSpeech_requests. reflexivity.
Qed.

(** ** C4: what the frame sampler samples *)

(** C4, counterexample: with the camera active no interval timer runs, and
    even a direct call of [captureScreenFrame] captures nothing. *)
Lemma camera_active_without_sampler :
  isVideoActive (state (this cameraOn)) = true
  /\ captureInterval (this cameraOn) = None
  /\ step fullBrowser cameraOn IntervalFires = cameraOn
  /\ captureScreenFrame fullBrowser cameraOn = cameraOn.
Proof. repeat split; reflexivity. Qed.

Lemma startVideoStream_captureInterval env r w :
  captureInterval (this (fst (startVideoStream env r w))) = captureInterval (this w).
Proof.
  unfold startVideoStream, cameraCatch.
  destruct (localVideoStream (this w)) as [old|], (hasMediaDevices env), r as [s|[|msg]];
    cbn; try reflexivity; destruct (getVideoTracks s); reflexivity.
Qed.

Lemma startScreenStream_captureInterval r w :
  captureInterval (this (fst (startScreenStream r w)))
  = intervalAfterScreenStart r (captureInterval (this w)).
Proof.
  unfold startScreenStream, screenCatch, intervalAfterScreenStart.
  destruct (localScreenStream (this w)) as [old|], r as [s|[|msg]]; cbn; try reflexivity;
    destruct (getVideoTracks s) eqn:E; cbn;
    first [rewrite (getVideoTracks_nil _ E) | rewrite (getVideoTracks_cons _ _ _ E)];
    reflexivity.
Qed.

Lemma startAudioStream_captureInterval r w :
  captureInterval (this (fst (startAudioStream r w))) = captureInterval (this w).
Proof. destruct r as [s|[|msg]]; reflexivity. Qed.

Lemma startMediaStream_without_screen env config ra rv rs w :
  Config.screen config = false ->
  captureInterval (this (startMediaStream env config ra rv rs w)) = captureInterval (this w).
Proof.
  intros Hs.
  unfold startMediaStream, tryStartCapture, tryStartScreen, tryStartVideo, tryStartAudio.
  rewrite Hs. cbn.
  destruct (Config.video config && _).
  - rewrite startVideoStream_captureInterval.
    destruct (Config.audio config && _); [|reflexivity].
    pose proof (startAudioStream_captureInterval ra w) as Ha.
    destruct (startAudioStream ra w) as [w' [e|]]; exact Ha.
  - destruct (Config.audio config && _); [|reflexivity].
    pose proof (startAudioStream_captureInterval ra w) as Ha.
    destruct (startAudioStream ra w) as [w' [e|]]; exact Ha.
Qed.

(** C4, amended: the sampler is started, with the fixed period of 5000 ms,
    by starting the screen capability and never by starting the camera; a tick
    captures nothing unless [isScreenActive] holds, never looks at the camera
    stream, and grabs its frame from the first video track of the screen
    stream. *)
Theorem sampler_follows_screen_only :
  forall env w,
    capturePeriod = 5000
    /\ (forall r, captureInterval (this (fst (startVideoStream env r w)))
                  = captureInterval (this w))
    /\ (forall r, captureInterval (this (fst (startScreenStream r w)))
                  = intervalAfterScreenStart r (captureInterval (this w)))
    /\ (forall config ra rv rs, Config.screen config = false ->
          captureInterval (this (startMediaStream env config ra rv rs w))
          = captureInterval (this w))
    /\ (isScreenActive (state (this w)) = false -> captureScreenFrame env w = w)
    /\ (forall v, captureScreenFrame env (onThis (set_localVideoStream v) w)
                  = onThis (set_localVideoStream v) (captureScreenFrame env w))
    /\ (forall track, In (AwaitGrabFrame track) (pending (captureScreenFrame env w)) ->
          In (AwaitGrabFrame track) (pending w)
          \/ exists s, localScreenStream (this w) = Some s
                       /\ head (getVideoTracks s) = Some track
                       /\ isScreenActive (state (this w)) = true).
Proof.
  intros env w. split; [reflexivity|].
  split; [intros r; apply startVideoStream_captureInterval|].
  split; [intros r; apply startScreenStream_captureInterval|].
  split; [intros; now apply startMediaStream_without_screen|].
  split; [|split].
  - intros Hoff. unfold captureScreenFrame. rewrite Hoff.
    destruct (localScreenStream (this w)); reflexivity.
  - intros v. unfold captureScreenFrame. cbn.
    destruct (localScreenStream (this w)) as [s|]; [|reflexivity].
    destruct (isScreenActive (state (this w))); [|reflexivity]. cbn.
    destruct (head (getVideoTracks s)); [|reflexivity].
    destruct (hasWindow env && hasImageCapture env); reflexivity.
  - intros track. unfold captureScreenFrame.
    destruct (localScreenStream (this w)) as [s|]; [|now left].
    destruct (isScreenActive (state (this w))) eqn:Hon; [|now left]. cbn.
    destruct (head (getVideoTracks s)) as [t|] eqn:Ht; [|now left].
    destruct (hasWindow env && hasImageCapture env); [|now left]. cbn.
    rewrite in_app_iff. intros [Hin|[Heq|[]]]; [now left|].
    right. exists s. injection Heq as ->. now repeat split.
Qed.

(** C4, witness: the session whose camera is on. *)
Lemma sampler_follows_screen_only_witness :
  Config.screen videoOnly = false
  /\ isScreenActive (state (this cameraOn)) = false
  /\ captureInterval
       (this (startMediaStream fullBrowser videoOnly microphone camera display cameraOn))
     = captureInterval (this cameraOn)
  /\ captureScreenFrame fullBrowser cameraOn = cameraOn.
Proof.
  split; [reflexivity|]. split; [reflexivity|].
  destruct (sampler_follows_screen_only fullBrowser cameraOn)
    as (_ & _ & _ & Hcamera & Hoff & _).
  split; [apply Hcamera; reflexivity|apply Hoff; reflexivity].
Defined.

(** ** C5: pairing a frame with the transcript buffer *)

(** C5, counterexample: a tick that fires while the request of the previous
    tick is still in flight reads the buffer before it is emptied: the same
    speech is analysed twice, so the second call does not see only speech
    that is new since the previous forwarded sample. *)
Lemma overlapping_ticks_forward_same_speech :
  analyses secondTickInFlight
  = [("FRAME", "what is a variable"); ("FRAME2", "what is a variable")]
  /\ length (requests secondTickInFlight) = 2.
Proof. split; vm_compute; reflexivity. Qed.

Lemma tick_requests_frame env w track :
  sampling env w track ->
  step env w IntervalFires = set_pending (pending w ++ [AwaitGrabFrame track]) w.
Proof.
  intros (Hwin & Hcap & Hint & Hact & s & Hs & Htrack).
  cbn [step]. destruct (captureInterval (this w)); [|congruence].
  unfold captureScreenFrame. rewrite Hs, Hact, Htrack, Hwin, Hcap. reflexivity.
Qed.

Lemma idle_tick env w :
  isScreenActive (state (this w)) = false
  \/ localScreenStream (this w) = None
  \/ captureInterval (this w) = None
  \/ hasWindow env = false
  \/ hasImageCapture env = false ->
  step env w IntervalFires = w.
Proof.
  intros H. cbn [step]. destruct (captureInterval (this w)) eqn:Hint; [|reflexivity].
  unfold captureScreenFrame.
  destruct (localScreenStream (this w)) as [s|] eqn:Hs; [|reflexivity].
  destruct (isScreenActive (state (this w))) eqn:Hact; [|reflexivity]. cbn [negb].
  destruct (head (getVideoTracks s)); [|reflexivity].
  destruct H as [H|[H|[H|[H|H]]]]; try discriminate; rewrite H;
    rewrite ?andb_false_r; reflexivity.
Qed.

Lemma step_GrabFrameSettles env w i track g sdkOk :
  pending w !! i = Some (AwaitGrabFrame track) ->
  step env w (GrabFrameSettles i g sdkOk)
  = captureScreenFrame_grabbed env g sdkOk (set_pending (delete i (pending w)) w).
Proof. intros Hi. cbn [step]. now rewrite Hi. Qed.


Lemma grabbed_with_empty_buffer env imageDataUrl base64Data sdkOk w :
  base64Of imageDataUrl = Some base64Data ->
  truthy base64Data = true ->
  truthy (speechToTextResult (this w)) = false ->
  captureScreenFrame_grabbed env (Grabbed imageDataUrl) sdkOk w = w.
Proof.
  intros Hb Ht Hs. unfold captureScreenFrame_grabbed. rewrite Hb, Ht, Hs. reflexivity.
Qed.


Lemma grabbed_with_speech env imageDataUrl base64Data sdkOk w :
  base64Of imageDataUrl = Some base64Data ->
  truthy base64Data = true ->
  truthy (speechToTextResult (this w)) = true ->
  analyses (captureScreenFrame_grabbed env (Grabbed imageDataUrl) sdkOk w)
  = (analyses w ++ [(base64Data, speechToTextResult (this w))])%list
  /\ (if negb (noApiKey env) && sdkOk
      then
        pending (captureScreenFrame_grabbed env (Grabbed imageDataUrl) sdkOk w)
        = (pending w
           ++ [AwaitGenerate (requestOf (subject (this w)) (level (this w)) base64Data
                                (speechToTextResult (this w)))])%list
        /\ requests (captureScreenFrame_grabbed env (Grabbed imageDataUrl) sdkOk w)
           = (requests w
              ++ [requestOf (subject (this w)) (level (this w)) base64Data
                    (speechToTextResult (this w))])%list
        /\ speechToTextResult
             (this (captureScreenFrame_grabbed env (Grabbed imageDataUrl) sdkOk w))
           = speechToTextResult (this w)
      else
        pending (captureScreenFrame_grabbed env (Grabbed imageDataUrl) sdkOk w) = pending w
        /\ requests (captureScreenFrame_grabbed env (Grabbed imageDataUrl) sdkOk w)
           = requests w
        /\ speechToTextResult
             (this (captureScreenFrame_grabbed env (Grabbed imageDataUrl) sdkOk w))
           = EmptyString).
Proof.
  intros Hb Ht Hs. unfold captureScreenFrame_grabbed. rewrite Hb, Ht, Hs. cbn [negb].
  unfold analyzeScreenAndSpeech, requestOf. rewrite Hs.
  destruct (noApiKey env); [repeat split; reflexivity|].
  destruct sdkOk; cbn [negb andb]; repeat split; reflexivity.
Qed.

Lemma request_settles_clears_buffer env i o rq w :
  pending w !! i = Some (AwaitGenerate rq) ->
  speechToTextResult (this (step env w (GenerateSettles i o))) = EmptyString
  /\ analyses (step env w (GenerateSettles i o)) = analyses w
  /\ requests (step env w (GenerateSettles i o)) = requests w.
Proof.
  intros Hi. cbn. rewrite Hi. split; [reflexivity|].
  unfold analyzeScreenAndSpeech_settled, speakResponse.
  destruct o as [t| |]; cbn; try (split; reflexivity).
  destruct (speechSynthesis (this w)); [|split; reflexivity].
  destruct (hasWindow env); [|split; reflexivity].
  destruct (hasSpeechSynthesis env); split; reflexivity.
Qed.

(** C5, amended: a tick makes no call by itself.  When the share is being
    sampled it only asks for a frame of the first video track of the screen
    stream; when the screen is inactive, no stream is held, the interval is
    not running or [ImageCapture] is missing, it changes nothing.  When the
    frame settles: a rejected grab makes no call; with non-empty image data
    and an empty buffer no call is made and nothing else changes; with a
    non-empty buffer exactly one [analyzeScreenAndSpeech] call is made, on the
    buffer's text.  If that call sends a request (an API key is set and the
    SDK does not throw) the request goes into flight and the buffer keeps its
    text; otherwise the call has returned and the buffer is empty.  The
    buffer is emptied when a request settles, without another call. *)
Theorem tick_pairs_frame_with_buffer :
  forall env w,
    (forall track,
       sampling env w track ->
       step env w IntervalFires = set_pending (pending w ++ [AwaitGrabFrame track]) w)
    /\ (isScreenActive (state (this w)) = false
        \/ localScreenStream (this w) = None
        \/ captureInterval (this w) = None
        \/ hasWindow env = false
        \/ hasImageCapture env = false ->
        step env w IntervalFires = w)
    /\ (forall i track sdkOk,
          pending w !! i = Some (AwaitGrabFrame track) ->
          step env w (GrabFrameSettles i GrabFailed sdkOk)
          = set_pending (delete i (pending w)) w)
    /\ (forall i track imageDataUrl base64Data sdkOk,
          pending w !! i = Some (AwaitGrabFrame track) ->
          base64Of imageDataUrl = Some base64Data ->
          truthy base64Data = true ->
          (truthy (speechToTextResult (this w)) = false ->
             step env w (GrabFrameSettles i (Grabbed imageDataUrl) sdkOk)
             = set_pending (delete i (pending w)) w)
          /\ (truthy (speechToTextResult (this w)) = true ->
                analyses (step env w (GrabFrameSettles i (Grabbed imageDataUrl) sdkOk))
                = (analyses w ++ [(base64Data, speechToTextResult (this w))])%list
                /\ (if negb (noApiKey env) && sdkOk
                    then
                      pending (step env w (GrabFrameSettles i (Grabbed imageDataUrl) sdkOk))
                      = (delete i (pending w)
                         ++ [AwaitGenerate
                               (requestOf (subject (this w)) (level (this w)) base64Data
                                  (speechToTextResult (this w)))])%list
                      /\ requests (step env w (GrabFrameSettles i (Grabbed imageDataUrl) sdkOk))
                         = (requests w
                            ++ [requestOf (subject (this w)) (level (this w)) base64Data
                                  (speechToTextResult (this w))])%list
                      /\ speechToTextResult
                           (this (step env w (GrabFrameSettles i (Grabbed imageDataUrl) sdkOk)))
                         = speechToTextResult (this w)
                    else
                      pending (step env w (GrabFrameSettles i (Grabbed imageDataUrl) sdkOk))
                      = delete i (pending w)
                      /\ requests (step env w (GrabFrameSettles i (Grabbed imageDataUrl) sdkOk))
                         = requests w
                      /\ speechToTextResult
                           (this (step env w (GrabFrameSettles i (Grabbed imageDataUrl) sdkOk)))
                         = EmptyString)))
    /\ (forall i o rq,
          pending w !! i = Some (AwaitGenerate rq) ->
          speechToTextResult (this (step env w (GenerateSettles i o))) = EmptyString
          /\ analyses (step env w (GenerateSettles i o)) = analyses w
          /\ requests (step env w (GenerateSettles i o)) = requests w).
Proof.
  intros env w.
  split; [intros track; apply tick_requests_frame|].
  split; [apply idle_tick|].
  split; [intros i track sdkOk Hi; now rewrite (step_GrabFrameSettles env w i track)|].
  split; [|intros i o rq; apply request_settles_clears_buffer].
  intros i track url b64 sdkOk Hi Hb Ht.
  rewrite (step_GrabFrameSettles env w i track _ _ Hi).
  split; intros Hs.
  - now apply (grabbed_with_empty_buffer env url b64).
  - exact (grabbed_with_speech env url b64 sdkOk (set_pending (delete i (pending w)) w)
             Hb Ht Hs).
Qed.

(** C5, witness: the question is in the buffer when the tick's frame
    arrives; one call is made, the request goes into flight and the buffer
    still holds the question.  In the browser without [ImageCapture] the
    tick changes nothing. *)
Lemma tick_pairs_frame_with_buffer_witness :
  pending tickWithCapture !! 0 = Some (AwaitGrabFrame (enable (setOnended liveVideoTrack)))
  /\ base64Of frameUrl = Some "FRAME"
  /\ truthy "FRAME" = true
  /\ truthy (speechToTextResult (this tickWithCapture)) = true
  /\ analyses (step fullBrowser tickWithCapture (GrabFrameSettles 0 (Grabbed frameUrl) true))
     = (analyses tickWithCapture
        ++ [("FRAME", speechToTextResult (this tickWithCapture))])%list
  /\ speechToTextResult
       (this (step fullBrowser tickWithCapture (GrabFrameSettles 0 (Grabbed frameUrl) true)))
     = speechToTextResult (this tickWithCapture)
  /\ hasImageCapture noCaptureBrowser = false
  /\ step noCaptureBrowser
       (run noCaptureBrowser (algebraSession noCaptureBrowser) spokenThenShared)
       IntervalFires
     = run noCaptureBrowser (algebraSession noCaptureBrowser) spokenThenShared.
Proof.
  split; [reflexivity|]. split; [reflexivity|]. split; [reflexivity|].
  split; [reflexivity|].
  destruct (tick_pairs_frame_with_buffer fullBrowser tickWithCapture)
    as (_ & _ & _ & Hframe & _).
  destruct (Hframe 0 (enable (setOnended liveVideoTrack)) frameUrl "FRAME" true
              eq_refl eq_refl eq_refl) as [_ Hcall].
  destruct (Hcall eq_refl) as [Hlog Hsent].
  assert (Hkey : negb (noApiKey fullBrowser) && true = true) by reflexivity.
  rewrite Hkey in Hsent. destruct Hsent as (_ & _ & Hbuf).
  split; [exact Hlog|]. split; [exact Hbuf|]. split; [reflexivity|].
  destruct (tick_pairs_frame_with_buffer noCaptureBrowser
              (run noCaptureBrowser (algebraSession noCaptureBrowser) spokenThenShared))
    as (_ & Hidle & _).
  apply Hidle. right; right; right; right. reflexivity.
Defined.

(** ** C6: the processing flag *)

(** C6: in every world the session can be in, [isProcessing] is true only
    while a request is in flight; after the synchronous part of a call it is
    true exactly when the call is suspended on its request (so it is false
    when the call returned because no API key is set or because the SDK
    threw); and it is false once the request has settled, whether with a
    reply, a rejection or a malformed response. *)
Theorem processing_flag_resets :
  forall env w,
    reachable env w ->
    (isProcessing (state (this w)) = true -> generating w)
    /\ (forall imageData speechText sdkOk,
          isProcessing
            (state (this (fst (analyzeScreenAndSpeech env imageData speechText sdkOk w))))
          = snd (analyzeScreenAndSpeech env imageData speechText sdkOk w))
    /\ (forall o,
          isProcessing (state (this (analyzeScreenAndSpeech_settled env o w))) = false)
    /\ (forall i o rq,
          pending w !! i = Some (AwaitGenerate rq) ->
          isProcessing (state (this (step env w (GenerateSettles i o)))) = false).
Proof.
  intros env w Hreach.
  destruct (sessionInv_reachable env w Hreach) as (_ & Hflag & Hkey).
  split; [exact Hflag|]. split; [|split].
  - intros img sp ok.
    rewrite analyzeScreenAndSpeech_suspends.
    pose proof (f_equal snd (analyzeScreenAndSpeech_core env img sp ok w)) as Hc.
    cbn [core snd] in Hc. rewrite Hc.
    destruct (noApiKey env) eqn:Hno; [|destruct ok; reflexivity].
    cbn. destruct (isProcessing (state (this w))); [|reflexivity].
    exfalso. exact (Hkey eq_refl (Hflag eq_refl)).
  - intros o. exact (f_equal snd (analyzeScreenAndSpeech_settled_core env o w)).
  - intros i o rq Hi. cbn [step]. rewrite Hi.
    exact (f_equal snd (analyzeScreenAndSpeech_settled_core env o
                          (set_pending (delete i (pending w)) w))).
Qed.

Lemma requestInFlight_reachable : reachable fullBrowser requestInFlight.
Proof.
  exists "algebra", "beginner",
    (spokenThenShared ++ [IntervalFires; GrabFrameSettles 0 (Grabbed frameUrl) true])%list.
  vm_compute. reflexivity.
Defined.

(** C6, witness: the request of the algebra session, in flight and then
    rejected. *)
Lemma processing_flag_resets_witness :
  isProcessing (state (this requestInFlight)) = true
  /\ pending requestInFlight !! 0
     = Some (AwaitGenerate (requestOf "algebra" "beginner" "FRAME" "what is a variable"))
  /\ isProcessing (state (this (step fullBrowser requestInFlight (GenerateSettles 0 Rejected))))
     = false.
Proof.
  split; [reflexivity|]. split; [reflexivity|].
  destruct (processing_flag_resets fullBrowser requestInFlight requestInFlight_reachable)
    as (_ & _ & _ & Hsettles).
  apply (Hsettles 0 Rejected
           (requestOf "algebra" "beginner" "FRAME" "what is a variable")).
  reflexivity.
Defined.

(** ** C7: restarting speech recognition *)

Lemma step_TimerFires_last env w ts t :
  timers w = (ts ++ [t])%list ->
  step env w (TimerFires (length ts)) = runTimer env (callback t) (set_timers ts w).
Proof.
  intros H. cbn [step]. rewrite H, (list_lookup_middle ts [] t (length ts) eq_refl).
  rewrite (delete_middle ts [] t), List.app_nil_r. reflexivity.
Qed.

Lemma alter_last {A} (f : A -> A) (l : list A) (x : A) :
  alter f (length l) (l ++ [x])%list = (l ++ [f x])%list.
Proof.
  pose proof (alter_app_r f l [x] 0) as H. rewrite Nat.add_0_r in H. exact H.
Qed.

Lemma recognizerEnds_running env w id r :
  recognizers w !! id = Some r -> running r = true -> onend r = true ->
  step env w (RecognizerEnds id)
  = if isAudioActive (state (this w))
    then setTimeout RestartDelay 1000
           (onThis (set_speechRecognition None) (updateRecognizer id (setRunning false) w))
    else updateRecognizer id (setRunning false) w.
Proof.
  intros Hr Hrun Hend. cbn [step]. unfold recognizerEnds. rewrite Hr, Hrun, Hend.
  unfold onendHandler. cbn. destruct (isAudioActive (state (this w))); reflexivity.
Qed.

Lemma restart_creates env w id r :
  recognizers w !! id = Some r -> running r = true -> onend r = true ->
  isAudioActive (state (this w)) = true ->
  hasWindow env = true -> hasSpeechRecognition env = true ->
  run env w (restartTrace id (length (timers w)))
  = set_recognizers
      (alter (setRunning false) id (recognizers w)
       ++ [setRunning true (attachHandlers newRecognition)])%list
      (onThis (set_speechRecognition (Some (length (recognizers w)))) w).
Proof.
  intros Hr Hrun Hend Hact Hwin Hsr.
  unfold run, restartTrace. cbn [fold_left].
  rewrite (recognizerEnds_running env w id r Hr Hrun Hend), Hact.
  set (w0 := onThis (set_speechRecognition None) (updateRecognizer id (setRunning false) w)).
  assert (H1 : step env (setTimeout RestartDelay 1000 w0) (TimerFires (length (timers w)))
               = setTimeout CreateDelay 500 w0).
  { rewrite (step_TimerFires_last env (setTimeout RestartDelay 1000 w0) (timers w)
               {| delay := 1000; callback := RestartDelay |} eq_refl).
    cbn [callback runTimer]. unfold restartRecognition, safeStartSpeechRecognition.
    cbn. rewrite Hact, Hwin. destruct w; reflexivity. }
  rewrite H1. clear H1.
  set (w2 := setupSpeechRecognition
               (onThis (set_speechRecognition (Some (length (recognizers w0))))
                  (set_recognizers (recognizers w0 ++ [newRecognition]) w0))).
  assert (H2 : step env (setTimeout CreateDelay 500 w0) (TimerFires (length (timers w)))
               = setTimeout StartDelay 300 w2).
  { rewrite (step_TimerFires_last env (setTimeout CreateDelay 500 w0) (timers w)
               {| delay := 500; callback := CreateDelay |} eq_refl).
    cbn [callback runTimer]. unfold createRecognition.
    cbn. rewrite Hact, Hsr. destruct w; reflexivity. }
  rewrite H2. clear H2.
  rewrite (step_TimerFires_last env (setTimeout StartDelay 300 w2) (timers w)
             {| delay := 300; callback := StartDelay |} eq_refl).
  cbn [callback runTimer]. unfold startRecognition. cbn. rewrite Hact.
  rewrite alter_last, (list_lookup_middle _ [] _ _ eq_refl). cbn.
  unfold updateRecognizer. cbn. rewrite alter_last, alter_last, length_alter.
  destruct w; reflexivity.
Qed.

Lemma restartRecognition_inactive env w :
  isAudioActive (state (this w)) = false ->
  runTimer env RestartDelay w = w /\ runTimer env CreateDelay w = w
  /\ runTimer env StartDelay w = w.
Proof.
  intros Hoff. cbn [runTimer].
  unfold restartRecognition, createRecognition, startRecognition. rewrite Hoff.
  repeat split; reflexivity.
Qed.

Lemma restartRecognition_unreferenced env w :
  speechRecognition (this w) = None ->
  hasWindow env = true ->
  isAudioActive (state (this w)) = true ->
  runTimer env RestartDelay w = setTimeout CreateDelay 500 w.
Proof.
  intros Hnone Hwin Hact. cbn [runTimer].
  unfold restartRecognition, safeStartSpeechRecognition. rewrite Hact, Hwin, Hnone.
  reflexivity.
Qed.

(** C7, counterexample: when the new recogniser (2) has been created, the
    ended one (1) still carries its three handlers. *)
Lemma ended_recognizer_keeps_handlers :
  speechRecognition (this recreated) = Some 2
  /\ length (recognizers recreated) = 3
  /\ recognizers recreated !! 1
     = Some {| continuous := true; interimResults := true; lang := "ko-KR";
               onresult := true; onerror := true; onend := true; running := false |}.
Proof. repeat split; vm_compute; reflexivity. Qed.

(** C7, amended: when a running recogniser whose [onend] handler is attached
    ends, then with [isAudioActive] false the session does nothing (no timer,
    no restart); with [isAudioActive] true it drops its reference at once,
    leaves the ended instance's handlers attached, and schedules the restart
    after 1000 ms; the restart schedules the creation after 500 ms, which
    appends a brand-new instance with the handlers attached, refers to it and
    schedules its start after 300 ms; at the end the new instance runs, the
    ended one does not, and if no other instance was running the new one is
    the only one.  Each timer does nothing when [isAudioActive] is false. *)
Theorem unexpected_end_restarts_recognition :
  forall env w id r,
    recognizers w !! id = Some r ->
    running r = true ->
    onend r = true ->
    (isAudioActive (state (this w)) = false ->
       step env w (RecognizerEnds id) = updateRecognizer id (setRunning false) w)
    /\ (isAudioActive (state (this w)) = true ->
          step env w (RecognizerEnds id)
          = setTimeout RestartDelay 1000
              (onThis (set_speechRecognition None) (updateRecognizer id (setRunning false) w))
          /\ (hasWindow env = true ->
              hasSpeechRecognition env = true ->
              run env w (restartTrace id (length (timers w)))
              = set_recognizers
                  (alter (setRunning false) id (recognizers w)
                   ++ [setRunning true (attachHandlers newRecognition)])%list
                  (onThis (set_speechRecognition (Some (length (recognizers w)))) w)
              /\ recognizers (run env w (restartTrace id (length (timers w)))) !! id
                 = Some (setRunning false r)
              /\ id < length (recognizers w)
              /\ ((forall j r', j <> id -> recognizers w !! j = Some r' -> running r' = false) ->
                  forall j r',
                    recognizers (run env w (restartTrace id (length (timers w)))) !! j = Some r' ->
                    running r' = true -> j = length (recognizers w))))
    /\ (forall w',
          speechRecognition (this w') = None ->
          hasWindow env = true ->
          isAudioActive (state (this w')) = true ->
          runTimer env RestartDelay w' = setTimeout CreateDelay 500 w')
    /\ (forall w',
          isAudioActive (state (this w')) = false ->
          runTimer env RestartDelay w' = w' /\ runTimer env CreateDelay w' = w'
          /\ runTimer env StartDelay w' = w').
Proof.
  intros env w id r Hr Hrun Hend.
  pose proof (recognizerEnds_running env w id r Hr Hrun Hend) as Hstep.
  split; [intros Hoff; now rewrite Hstep, Hoff|].
  split; [|split; [apply restartRecognition_unreferenced|apply restartRecognition_inactive]].
  intros Hact. split; [now rewrite Hstep, Hact|].
  intros Hwin Hsr.
  rewrite (restart_creates env w id r Hr Hrun Hend Hact Hwin Hsr).
  assert (Hlt : id < length (recognizers w)) by (eapply lookup_lt_Some, Hr).
  split; [reflexivity|]. split; [|split; [exact Hlt|]].
  - cbn. rewrite lookup_app_l by (now rewrite length_alter).
    rewrite list_lookup_alter_eq, Hr. reflexivity.
  - intros Hothers j r' Hj Hrunning. cbn in Hj.
    apply lookup_snoc_Some in Hj as [[Hlen Hj]|[Hlen _]].
    + exfalso. destruct (decide (id = j)) as [<-|Hne].
      * rewrite list_lookup_alter_eq, Hr in Hj. injection Hj as <-.
        cbn in Hrunning. discriminate.
      * rewrite list_lookup_alter_ne in Hj by exact Hne.
        rewrite (Hothers j r' (not_eq_sym Hne) Hj) in Hrunning. discriminate.
    + now rewrite length_alter in Hlen.
Qed.

(** C7, witness: recogniser 1 of the listening session ends. *)
Lemma unexpected_end_restarts_recognition_witness :
  recognizers listeningSession !! 1 = Some (setRunning true (attachHandlers newRecognition))
  /\ isAudioActive (state (this listeningSession)) = true
  /\ speechRecognition
       (this (run fullBrowser listeningSession
                (restartTrace 1 (length (timers listeningSession)))))
     = Some 2.
Proof.
  split; [reflexivity|]. split; [reflexivity|].
  destruct (unexpected_end_restarts_recognition fullBrowser listeningSession 1
              (setRunning true (attachHandlers newRecognition)) eq_refl eq_refl eq_refl)
    as (_ & Hon & _).
  destruct (Hon eq_refl) as [_ Hrestart].
  destruct (Hrestart eq_refl eq_refl) as [Hworld _].
  rewrite Hworld. reflexivity.
Defined.

(** ** C8: one utterance at a time *)

Lemma canSpeak_speakResponse env t w :
  canSpeak env (speakResponse env t w) = canSpeak env w.
Proof.
  unfold speakResponse, canSpeak.
  destruct (speechSynthesis (this w)) eqn:E, (hasWindow env), (hasSpeechSynthesis env);
    cbn; rewrite ?E; reflexivity.
Qed.

Lemma speakResponse_isSpeaking env t w :
  canSpeak env w = true -> isSpeaking (state (this (speakResponse env t w))) = true.
Proof.
  unfold speakResponse, canSpeak.
  destruct (speechSynthesis (this w)), (hasWindow env), (hasSpeechSynthesis env);
    try discriminate; reflexivity.
Qed.

(** C8: the synthesiser's queue never holds more than one utterance; where
    speech synthesis is available, [speak(A)] then [speak(B)] leaves exactly
    the utterance of [B] in the queue, [isSpeaking] is true after each call,
    every utterance carries both handlers, and the end or the failure of the
    playing utterance sets [isSpeaking] to false. *)
Theorem one_utterance_at_a_time :
  forall env w,
    (reachable env w -> length (synthQueue w) <= 1)
    /\ (forall A B,
          canSpeak env w = true ->
          synthQueue (speakResponse env A w) = [newUtterance A]
          /\ synthQueue (speakResponse env B (speakResponse env A w)) = [newUtterance B]
          /\ isSpeaking (state (this (speakResponse env A w))) = true
          /\ isSpeaking (state (this (speakResponse env B (speakResponse env A w)))) = true)
    /\ (forall t, uonend (newUtterance t) = true /\ uonerror (newUtterance t) = true)
    /\ isSpeaking (state (this (utteranceOnend w))) = false
    /\ isSpeaking (state (this (utteranceOnerror w))) = false
    /\ (forall t rest,
          synthQueue w = newUtterance t :: rest ->
          (synthQueue (step env w UtteranceEnds) = rest
           /\ isSpeaking (state (this (step env w UtteranceEnds))) = false)
          /\ (synthQueue (step env w UtteranceFails) = rest
              /\ isSpeaking (state (this (step env w UtteranceFails))) = false)).
Proof.
  intros env w. split; [|split; [|split; [|split; [|split]]]].
  - intros Hreach. apply (sessionInv_reachable env w Hreach).
  - intros A B Hcan.
    rewrite !speakResponse_synthQueue, canSpeak_speakResponse, Hcan.
    repeat split; try reflexivity.
    + now apply speakResponse_isSpeaking.
    + apply speakResponse_isSpeaking. now rewrite canSpeak_speakResponse.
  - intros t. split; reflexivity.
  - reflexivity.
  - reflexivity.
  - intros t rest Hq. cbn [step]. unfold utteranceLeaves. rewrite Hq. cbn.
    repeat split; reflexivity.
Qed.

(** C8, witness: the tutor answers twice in a row. *)
Lemma one_utterance_at_a_time_witness :
  canSpeak fullBrowser requestInFlight = true
  /\ length (synthQueue requestInFlight) <= 1
  /\ synthQueue (speakResponse fullBrowser "B" (speakResponse fullBrowser "A" requestInFlight))
     = [newUtterance "B"].
Proof.
  split; [reflexivity|].
  destruct (one_utterance_at_a_time fullBrowser requestInFlight) as (Hone & Htwice & _).
  split; [exact (Hone requestInFlight_reachable)|].
  apply (Htwice "A" "B"). reflexivity.
Defined.

(** ** C9: stopping a modality *)

(** C9, counterexample: [stopAudioStream] emits one state change and nothing
    else; the interim transcript last sent to the subscribers stays the last
    message, and the transcript buffer keeps its text. *)
Lemma stopAudio_keeps_transcripts :
  lastMessage (emitted heardInterim)
  = Some {| mtype := speech_text; mcontent := "and a con"; minterim := Some true |}
  /\ lastMessage (emitted (stopAudioStream heardInterim))
     = Some {| mtype := speech_text; mcontent := "and a con"; minterim := Some true |}
  /\ speechToTextResult (this (stopAudioStream heardInterim)) = "what is a variable"
  /\ emitted (stopAudioStream heardInterim)
     = (emitted heardInterim
        ++ [OnStateChange (setFlag IsAudioActive false (state (this heardInterim)))])%list.
Proof. repeat split; vm_compute; reflexivity. Qed.


Lemma stopVideoTracks_idempotent s : stopVideoTracks (stopVideoTracks s) = stopVideoTracks s.
Proof.
  unfold stopVideoTracks. rewrite List.map_map. apply List.map_ext.
  intros t. destruct (isVideo t) eqn:E; [|now rewrite E].
  unfold isVideo in *. cbn. now rewrite E.
Qed.


Lemma stopAudioStream_twice w :
  withoutLog (stopAudioStream (stopAudioStream w)) = withoutLog (stopAudioStream w).
Proof.
  unfold stopAudioStream, withoutLog.
  destruct (speechRecognition (this w)) as [id|] eqn:Hr,
           (localAudioStream (this w)) as [s|] eqn:Hs;
    repeat (progress (cbn; rewrite ?Hr, ?Hs)); reflexivity.
Qed.

Lemma stopVideoStream_twice w :
  withoutLog (stopVideoStream (stopVideoStream w)) = withoutLog (stopVideoStream w).
Proof.
  unfold stopVideoStream, withoutLog.
  destruct (localVideoStream (this w)) as [s|] eqn:Hs; cbn; rewrite ?Hs; [|reflexivity].
  cbn. rewrite stopVideoTracks_idempotent. reflexivity.
Qed.

Lemma stopScreenStream_twice w :
  withoutLog (stopScreenStream (stopScreenStream w)) = withoutLog (stopScreenStream w).
Proof.
  unfold stopScreenStream, withoutLog.
  destruct (localScreenStream (this w)) as [s|] eqn:Hs,
           (captureInterval (this w)) as [p|] eqn:Hp;
    repeat (progress (cbn; rewrite ?Hs, ?Hp));
    rewrite ?stopVideoTracks_idempotent; reflexivity.
Qed.

Lemma setFlag_audio_off s : isAudioActive s = false -> setFlag IsAudioActive false s = s.
Proof. destruct s; cbn; intros ->; reflexivity. Qed.

Lemma setFlag_video_off s : isVideoActive s = false -> setFlag IsVideoActive false s = s.
Proof. destruct s; cbn; intros ->; reflexivity. Qed.

Lemma setFlag_screen_off s : isScreenActive s = false -> setFlag IsScreenActive false s = s.
Proof. destruct s; cbn; intros ->; reflexivity. Qed.

Lemma stopAudioStream_state w :
  state (this (stopAudioStream w)) = setFlag IsAudioActive false (state (this w)).
Proof. unfold stopAudioStream. frame. Qed.

Lemma stopVideoStream_state w :
  state (this (stopVideoStream w))
  = match localVideoStream (this w) with
    | Some _ => setFlag IsVideoActive false (state (this w))
    | None => state (this w)
    end.
Proof. unfold stopVideoStream. frame. Qed.

Lemma stopScreenStream_state w :
  state (this (stopScreenStream w))
  = match localScreenStream (this w) with
    | Some _ => setFlag IsScreenActive false (state (this w))
    | None => state (this w)
    end.
Proof. unfold stopScreenStream. frame. Qed.

(** C9, amended: each stop operation is idempotent (a second call changes
    nothing but the record of notifications) and leaves the session state
    unchanged when its modality is already inactive; stopping audio also
    stops the speech recogniser (handlers detached, recogniser stopped,
    reference dropped), and it neither touches the transcript buffer nor
    emits anything but its state change. *)
Theorem stop_is_idempotent :
  forall w,
    (withoutLog (stopAudioStream (stopAudioStream w)) = withoutLog (stopAudioStream w)
     /\ withoutLog (stopVideoStream (stopVideoStream w)) = withoutLog (stopVideoStream w)
     /\ withoutLog (stopScreenStream (stopScreenStream w)) = withoutLog (stopScreenStream w))
    /\ ((isAudioActive (state (this w)) = false ->
         state (this (stopAudioStream w)) = state (this w))
        /\ (isVideoActive (state (this w)) = false ->
            state (this (stopVideoStream w)) = state (this w))
        /\ (isScreenActive (state (this w)) = false ->
            state (this (stopScreenStream w)) = state (this w)))
    /\ (speechRecognition (this (stopAudioStream w)) = None
        /\ forall id r,
             speechRecognition (this w) = Some id ->
             recognizers w !! id = Some r ->
             recognizers (stopAudioStream w) !! id = Some (setRunning false (detachHandlers r)))
    /\ speechToTextResult (this (stopAudioStream w)) = speechToTextResult (this w)
    /\ emitted (stopAudioStream w)
       = (emitted w ++ [OnStateChange (setFlag IsAudioActive false (state (this w)))])%list.
Proof.
  intros w. split; [|split; [|split; [|split]]].
  - auto using stopAudioStream_twice, stopVideoStream_twice, stopScreenStream_twice.
  - split; [|split]; intros Hoff.
    + rewrite stopAudioStream_state. now apply setFlag_audio_off.
    + rewrite stopVideoStream_state. destruct (localVideoStream (this w)); [|reflexivity].
      now apply setFlag_video_off.
    + rewrite stopScreenStream_state. destruct (localScreenStream (this w)); [|reflexivity].
      now apply setFlag_screen_off.
  - split.
    + unfold stopAudioStream.
      destruct (speechRecognition (this w)) eqn:Hr, (localAudioStream (this w)) eqn:Hs;
        repeat (progress (cbn; rewrite ?Hr, ?Hs)); reflexivity.
    + intros id r Hid Hr. unfold stopAudioStream.
      destruct (localAudioStream (this w)) eqn:Hs;
        repeat (progress (cbn; rewrite ?Hid, ?Hs));
        rewrite !list_lookup_alter_eq, Hr; reflexivity.
  - unfold stopAudioStream.
    destruct (speechRecognition (this w)) eqn:Hr, (localAudioStream (this w)) eqn:Hs;
      repeat (progress (cbn; rewrite ?Hr, ?Hs)); reflexivity.
  - unfold stopAudioStream.
    destruct (speechRecognition (this w)) eqn:Hr, (localAudioStream (this w)) eqn:Hs;
      repeat (progress (cbn; rewrite ?Hr, ?Hs)); reflexivity.
Qed.

(** C9, witness: the microphone of a new session is off, and the listening
    session holds recogniser 1. *)
Lemma stop_is_idempotent_witness :
  isAudioActive (state (this (algebraSession fullBrowser))) = false
  /\ state (this (stopAudioStream (algebraSession fullBrowser)))
     = state (this (algebraSession fullBrowser))
  /\ speechRecognition (this heardInterim) = Some 1
  /\ option_map running (recognizers (stopAudioStream heardInterim) !! 1) = Some false.
Proof.
  split; [reflexivity|].
  destruct (stop_is_idempotent (algebraSession fullBrowser)) as (_ & (Hoff & _) & _).
  split; [apply Hoff; reflexivity|].
  split; [reflexivity|].
  destruct (stop_is_idempotent heardInterim) as (_ & _ & (_ & Hstops) & _).
  rewrite (Hstops 1 (setRunning true (attachHandlers newRecognition)) eq_refl eq_refl).
  reflexivity.
Defined.

(** ** C10: the transcript buffer holds the last final event *)


















(** ** The SDP helper *)

Lemma splitCRLF_step c c2 s :
  splitCRLF (String c (String c2 s))
  = if Ascii.eqb c CR && Ascii.eqb c2 LF then EmptyString :: splitCRLF s
    else consHead c (splitCRLF (String c2 s)).
Proof. reflexivity. Qed.

Lemma consHead_nonempty c ls : consHead c ls <> [].
Proof. destruct ls; discriminate. Qed.

Lemma splitCRLF_nonempty s : splitCRLF s <> [].
Proof.
  destruct s as [|c [|c2 rest]]; [discriminate..|].
  rewrite splitCRLF_step.
  destruct (Ascii.eqb c CR && Ascii.eqb c2 LF); [discriminate|apply consHead_nonempty].
Qed.

Lemma joinCRLF_cons l ls :
  ls <> [] -> joinCRLF (l :: ls) = l +:+ CRLF +:+ joinCRLF ls.
Proof. intros H. destruct ls; [now destruct H|reflexivity]. Qed.

Lemma joinCRLF_consHead c ls :
  ls <> [] -> joinCRLF (consHead c ls) = String c (joinCRLF ls).
Proof.
  intros H. destruct ls as [|h [|h2 t]]; [now destruct H| |]; reflexivity.
Qed.

Lemma string_ind2 (P : string -> Prop) :
  P EmptyString ->
  (forall c, P (String c EmptyString)) ->
  (forall c c2 s, P s -> P (String c2 s) -> P (String c (String c2 s))) ->
  forall s, P s.
Proof.
  intros H0 H1 H2 s.
  enough (P s /\ forall c, P (String c s)) by tauto.
  induction s as [|c2 s [IHs IHc]]; [split; [exact H0|exact H1]|].
  split; [apply IHc|]. intros c. apply H2; [exact IHs|apply IHc].
Qed.

(** Joining the lines of a text gives the text back. *)
Lemma joinCRLF_splitCRLF s : joinCRLF (splitCRLF s) = s.
Proof.
  induction s as [|c|c c2 s IHs IHc] using string_ind2; [reflexivity..|].
  rewrite splitCRLF_step. destruct (Ascii.eqb c CR && Ascii.eqb c2 LF) eqn:E.
  - apply andb_prop in E as [Ec Ec2].
    apply Ascii.eqb_eq in Ec, Ec2. subst.
    rewrite joinCRLF_cons by apply splitCRLF_nonempty. rewrite IHs. reflexivity.
  - rewrite joinCRLF_consHead by apply splitCRLF_nonempty.
    now rewrite IHc.
Qed.

Lemma hasCRLF_step c c2 s :
  hasCRLF (String c (String c2 s))
  = (Ascii.eqb c CR && Ascii.eqb c2 LF) || hasCRLF (String c2 s).
Proof. reflexivity. Qed.

(** A text without a line break is its own single line. *)
Lemma splitCRLF_clean l : clean l -> splitCRLF l = [l].
Proof.
  unfold clean.
  induction l as [|c|c c2 s IHs IHc] using string_ind2; [reflexivity..|].
  rewrite hasCRLF_step, splitCRLF_step. intros H.
  apply orb_false_elim in H as [-> H]. now rewrite (IHc H).
Qed.

Lemma splitCRLF_line l r : clean l -> splitCRLF (l +:+ CRLF +:+ r) = l :: splitCRLF r.
Proof.
  unfold clean.
  induction l as [|c|c c2 s IHs IHc] using string_ind2.
  - reflexivity.
  - intros _. change (String c EmptyString +:+ CRLF +:+ r) with (String c (String CR (String LF r))).
    rewrite splitCRLF_step.
    replace (Ascii.eqb c CR && Ascii.eqb CR LF) with false
      by (now rewrite andb_false_r).
    reflexivity.
  - rewrite hasCRLF_step. intros H. apply orb_false_elim in H as [E H].
    change (String c (String c2 s) +:+ CRLF +:+ r)
      with (String c (String c2 s +:+ CRLF +:+ r)).
    change (String c2 s +:+ CRLF +:+ r) with (String c2 (s +:+ CRLF +:+ r)) at 1.
    rewrite splitCRLF_step, E.
    change (String c2 (s +:+ CRLF +:+ r)) with (String c2 s +:+ CRLF +:+ r).
    now rewrite (IHc H).
Qed.

(** Splitting joined lines gives the lines back. *)
Lemma splitCRLF_joinCRLF ls :
  ls <> [] -> Forall clean ls -> splitCRLF (joinCRLF ls) = ls.
Proof.
  induction ls as [|l ls IH]; [congruence|]. intros _ Hc.
  apply Forall_cons_iff in Hc as [Hl Hls].
  destruct ls as [|l2 ls]; [now apply splitCRLF_clean|].
  rewrite joinCRLF_cons by discriminate.
  rewrite splitCRLF_line by exact Hl.
  rewrite IH; [reflexivity|discriminate|exact Hls].
Qed.

(** The first piece of a text that starts with [c] is empty or starts with [c]. *)
Lemma splitCRLF_head c s :
  exists h t, splitCRLF (String c s) = h :: t
              /\ (h = EmptyString /\ c = CR \/ exists h', h = String c h').
Proof.
  destruct s as [|c2 s].
  - exists (String c EmptyString), []. split; [reflexivity|]. right. now eexists.
  - rewrite splitCRLF_step. destruct (Ascii.eqb c CR && Ascii.eqb c2 LF) eqn:E.
    + apply andb_prop in E as [Ec _]. apply Ascii.eqb_eq in Ec.
      exists EmptyString, (splitCRLF s). split; [reflexivity|]. now left.
    + pose proof (splitCRLF_nonempty (String c2 s)) as Hne.
      destruct (splitCRLF (String c2 s)) as [|h t]; [congruence|].
      exists (String c h), t. split; [reflexivity|]. right. now eexists.
Qed.

Lemma splitCRLF_lines_clean s : Forall clean (splitCRLF s).
Proof.
  induction s as [|c|c c2 s IHs IHc] using string_ind2.
  - repeat constructor.
  - repeat constructor.
  - rewrite splitCRLF_step. destruct (Ascii.eqb c CR && Ascii.eqb c2 LF) eqn:E.
    + constructor; [reflexivity|exact IHs].
    + destruct (splitCRLF_head c2 s) as (h0 & t0 & Heq & Hh).
      rewrite Heq in IHc |- *. apply Forall_cons_iff in IHc as [Hh0 Ht0].
      constructor; [|exact Ht0]. unfold clean in *.
      destruct Hh as [[-> ->]|[h' ->]]; [reflexivity|].
      rewrite hasCRLF_step, E. exact Hh0.
Qed.

Lemma media_line_is_no_attribute l :
  isMediaLine l = true -> isSetupLine l = false /\ isMidLine l = false.
Proof.
  destruct l as [|c l]; [discriminate|].
  unfold isMediaLine, isSetupLine, isMidLine. cbn [startsWith].
  intros H. apply andb_prop in H as [Hc _]. apply Ascii.eqb_eq in Hc. subst c.
  split; reflexivity.
Qed.

Lemma setupLine_isSetupLine v : isSetupLine (setupLine v) = true.
Proof. destruct v; reflexivity. Qed.

Lemma setupLine_clean v : clean (setupLine v).
Proof. destruct v; reflexivity. Qed.

Lemma setSetupLines_succ i x l ls :
  setSetupLines (S i) x (l :: ls) = l :: setSetupLines i x ls.
Proof.
  unfold setSetupLines. cbn [replaceSetup insertSetup].
  destruct (replaceSetup i x ls); reflexivity.
Qed.

Lemma setSetupLines_skip x l ls :
  isSetupLine l = false -> isMidLine l = false ->
  setSetupLines 0 x (l :: ls) = l :: setSetupLines 0 x ls.
Proof.
  intros Hs Hm. unfold setSetupLines. cbn [replaceSetup insertSetup]. rewrite Hs, Hm.
  destruct (replaceSetup 0 x ls); reflexivity.
Qed.

Lemma replaceSetup_none i x y ls : replaceSetup i x ls = None -> replaceSetup i y ls = None.
Proof.
  revert i. induction ls as [|l ls IH]; intros i; [reflexivity|].
  destruct i as [|i]; cbn [replaceSetup].
  - destruct (isSetupLine l); [discriminate|].
    destruct (replaceSetup 0 x ls) eqn:E; [discriminate|]. now rewrite (IH 0 E).
  - destruct (replaceSetup i x ls) eqn:E; [discriminate|]. now rewrite (IH i E).
Qed.

Lemma replaceSetup_again i x y ls ls1 :
  isSetupLine x = true ->
  replaceSetup i x ls = Some ls1 ->
  replaceSetup i y ls1 = replaceSetup i y ls.
Proof.
  intros Hx. revert i ls1. induction ls as [|l ls IH]; intros i ls1; [discriminate|].
  destruct i as [|i]; cbn [replaceSetup].
  - destruct (isSetupLine l) eqn:Hl.
    + intros [= <-]. cbn [replaceSetup]. now rewrite Hx.
    + destruct (replaceSetup 0 x ls) as [ls'|] eqn:E; [|discriminate].
      intros [= <-]. cbn [replaceSetup]. rewrite Hl. now rewrite (IH 0 ls' E).
  - destruct (replaceSetup i x ls) as [ls'|] eqn:E; [|discriminate].
    intros [= <-]. cbn [replaceSetup]. now rewrite (IH i ls' E).
Qed.

Lemma setSetupLines_after_insert i x y ls :
  isSetupLine x = true ->
  replaceSetup i x ls = None ->
  setSetupLines i y (insertSetup i x ls) = insertSetup i y ls.
Proof.
  intros Hx. revert i. induction ls as [|l ls IH]; intros i; [reflexivity|].
  destruct i as [|i]; cbn [replaceSetup insertSetup].
  - destruct (isSetupLine l) eqn:Hl; [discriminate|].
    destruct (replaceSetup 0 x ls) eqn:E; [discriminate|]. intros _.
    destruct (isMidLine l) eqn:Hm.
    + unfold setSetupLines. cbn [replaceSetup]. now rewrite Hl, Hx.
    + rewrite setSetupLines_skip by assumption. now rewrite (IH 0 E).
  - destruct (replaceSetup i x ls) eqn:E; [discriminate|]. intros _.
    rewrite setSetupLines_succ. now rewrite (IH i E).
Qed.

(** On the lines, a second call overrides the first. *)
Lemma setSetupLines_override i x y ls :
  isSetupLine x = true ->
  setSetupLines i y (setSetupLines i x ls) = setSetupLines i y ls.
Proof.
  intros Hx. unfold setSetupLines at 2.
  destruct (replaceSetup i x ls) as [ls1|] eqn:E.
  - unfold setSetupLines. rewrite (replaceSetup_again i x y ls ls1 Hx E).
    destruct (replaceSetup i y ls) eqn:E2; [reflexivity|].
    now rewrite (replaceSetup_none i y x ls E2) in E.
  - rewrite (setSetupLines_after_insert i x y ls Hx E).
    unfold setSetupLines. now rewrite (replaceSetup_none i x y ls E).
Qed.

Lemma findMedia_setSetupLines m x ls :
  findMedia ls = Some m -> findMedia (setSetupLines m x ls) = Some m.
Proof.
  revert m. induction ls as [|l ls IH]; intros m; [discriminate|].
  cbn [findMedia]. destruct (isMediaLine l) eqn:Hl.
  - intros [= <-]. destruct (media_line_is_no_attribute l Hl) as [Hs Hm].
    rewrite setSetupLines_skip by assumption. cbn [findMedia]. now rewrite Hl.
  - destruct (findMedia ls) as [m'|] eqn:E; [|discriminate]. intros [= <-].
    rewrite setSetupLines_succ. cbn [findMedia]. now rewrite Hl, (IH m' eq_refl).
Qed.

Lemma replaceSetup_length i x ls ls1 :
  replaceSetup i x ls = Some ls1 -> length ls1 = length ls.
Proof.
  revert i ls1. induction ls as [|l ls IH]; intros i ls1; [discriminate|].
  destruct i as [|i]; cbn [replaceSetup].
  - destruct (isSetupLine l); [now intros [= <-]|].
    destruct (replaceSetup 0 x ls) as [ls'|] eqn:E; [|discriminate].
    intros [= <-]. cbn. now rewrite (IH 0 ls' E).
  - destruct (replaceSetup i x ls) as [ls'|] eqn:E; [|discriminate].
    intros [= <-]. cbn. now rewrite (IH i ls' E).
Qed.

Lemma insertSetup_length i x ls :
  length ls <= length (insertSetup i x ls) <= S (length ls).
Proof.
  revert i. induction ls as [|l ls IH]; intros i; [cbn; lia|].
  destruct i as [|i]; cbn [insertSetup].
  - destruct (isMidLine l); cbn; [lia|]. specialize (IH 0). lia.
  - cbn. specialize (IH i). lia.
Qed.

Lemma setSetupLines_length i x ls :
  length ls <= length (setSetupLines i x ls) <= S (length ls).
Proof.
  unfold setSetupLines. destruct (replaceSetup i x ls) as [ls1|] eqn:E.
  - rewrite (replaceSetup_length i x ls ls1 E). lia.
  - apply insertSetup_length.
Qed.

Lemma replaceSetup_clean i x ls ls1 :
  clean x -> Forall clean ls -> replaceSetup i x ls = Some ls1 -> Forall clean ls1.
Proof.
  intros Hx. revert i ls1. induction ls as [|l ls IH]; intros i ls1 Hc; [discriminate|].
  apply Forall_cons_iff in Hc as [Hl Hls].
  destruct i as [|i]; cbn [replaceSetup].
  - destruct (isSetupLine l); [intros [= <-]; now constructor|].
    destruct (replaceSetup 0 x ls) as [ls'|] eqn:E; [|discriminate].
    intros [= <-]. constructor; [exact Hl|now apply (IH 0)].
  - destruct (replaceSetup i x ls) as [ls'|] eqn:E; [|discriminate].
    intros [= <-]. constructor; [exact Hl|now apply (IH i)].
Qed.

Lemma insertSetup_clean i x ls :
  clean x -> Forall clean ls -> Forall clean (insertSetup i x ls).
Proof.
  intros Hx. revert i. induction ls as [|l ls IH]; intros i Hc; [constructor|].
  apply Forall_cons_iff in Hc as [Hl Hls].
  destruct i as [|i]; cbn [insertSetup].
  - destruct (isMidLine l); repeat constructor; auto.
  - constructor; auto.
Qed.

Lemma setSetupLines_clean i x ls :
  clean x -> Forall clean ls -> Forall clean (setSetupLines i x ls).
Proof.
  intros Hx Hc. unfold setSetupLines. destruct (replaceSetup i x ls) eqn:E.
  - now apply (replaceSetup_clean i x ls).
  - now apply insertSetup_clean.
Qed.

(** The lines of the result are the lines the loops produce. *)
Lemma setSdpSetupAttribute_lines sdp v m :
  findMedia (splitCRLF sdp) = Some m ->
  splitCRLF (setSdpSetupAttribute sdp v)
  = setSetupLines m (setupLine v) (splitCRLF sdp).
Proof.
  intros Hm. unfold setSdpSetupAttribute. rewrite Hm.
  apply splitCRLF_joinCRLF.
  - pose proof (setSetupLines_length m (setupLine v) (splitCRLF sdp)) as Hlen.
    pose proof (splitCRLF_nonempty sdp) as Hne.
    destruct (splitCRLF sdp); [congruence|].
    destruct (setSetupLines m (setupLine v) (s :: l)); [cbn in Hlen; lia|discriminate].
  - apply setSetupLines_clean; [apply setupLine_clean|apply splitCRLF_lines_clean].
Qed.

(** X1: whatever the first call set, a second call on its result gives what
    the second call alone gives; in particular the method is idempotent. *)
Theorem setSdpSetupAttribute_override :
  forall sdp v1 v2,
    setSdpSetupAttribute (setSdpSetupAttribute sdp v1) v2 = setSdpSetupAttribute sdp v2.
Proof.
  intros sdp v1 v2.
  destruct (findMedia (splitCRLF sdp)) as [m|] eqn:Hm.
  - unfold setSdpSetupAttribute at 1.
    rewrite (setSdpSetupAttribute_lines sdp v1 m Hm).
    rewrite (findMedia_setSetupLines m (setupLine v1) _ Hm).
    rewrite setSetupLines_override by apply setupLine_isSetupLine.
    unfold setSdpSetupAttribute. now rewrite Hm.
  - unfold setSdpSetupAttribute at 2. rewrite Hm. reflexivity.
Qed.

Lemma setSetupLines_nothing_to_set m x ls :
  (forall l, In l (drop m ls) -> isSetupLine l = false /\ isMidLine l = false) ->
  setSetupLines m x ls = ls.
Proof.
  revert m. induction ls as [|l ls IH]; intros m H; [reflexivity|].
  destruct m as [|m].
  - destruct (H l (or_introl eq_refl)) as [Hs Hm].
    rewrite setSetupLines_skip by assumption. f_equal.
    apply (IH 0). intros l' Hl'. apply H. now right.
  - rewrite setSetupLines_succ. f_equal. apply IH. exact H.
Qed.

(** X2: a description without a media line, or with neither an [a=setup:] nor
    an [a=mid:] line from its first media line on, is returned as it is. *)
Theorem setSdpSetupAttribute_nothing_to_set :
  forall sdp v,
    (forall m l,
       findMedia (splitCRLF sdp) = Some m ->
       In l (drop m (splitCRLF sdp)) ->
       isSetupLine l = false /\ isMidLine l = false) ->
    setSdpSetupAttribute sdp v = sdp.
Proof.
  intros sdp v H. unfold setSdpSetupAttribute.
  destruct (findMedia (splitCRLF sdp)) as [m|] eqn:Hm; [|reflexivity].
  rewrite setSetupLines_nothing_to_set by (intros l Hl; now apply (H m)).
  apply joinCRLF_splitCRLF.
Qed.

Lemma setSetupLines_take m x ls :
  findMedia ls = Some m -> take m (setSetupLines m x ls) = take m ls.
Proof.
  revert m. induction ls as [|l ls IH]; intros m; [discriminate|].
  cbn [findMedia]. destruct (isMediaLine l) eqn:Hl.
  - intros [= <-]. reflexivity.
  - destruct (findMedia ls) as [m'|] eqn:E; [|discriminate]. intros [= <-].
    rewrite setSetupLines_succ. cbn. now rewrite (IH m' eq_refl).
Qed.

Lemma setSetupLines_drop m x ls :
  drop m (setSetupLines m x ls) = setSetupLines 0 x (drop m ls).
Proof.
  revert m. induction ls as [|l ls IH]; intros m.
  - destruct m; reflexivity.
  - destruct m as [|m]; [reflexivity|]. rewrite setSetupLines_succ. cbn. apply IH.
Qed.

Lemma replaceSetup_none_no_setup x ls l :
  replaceSetup 0 x ls = None -> In l ls -> isSetupLine l = false.
Proof.
  induction ls as [|l0 ls IH]; [intros _ []|]. cbn [replaceSetup].
  destruct (isSetupLine l0) eqn:Hl0; [discriminate|].
  destruct (replaceSetup 0 x ls) eqn:E; [discriminate|].
  intros _ [<-|Hin]; [exact Hl0|now apply IH].
Qed.

Lemma replaceSetup_find x ls ls1 :
  isSetupLine x = true ->
  replaceSetup 0 x ls = Some ls1 -> List.find isSetupLine ls1 = Some x.
Proof.
  intros Hx. revert ls1. induction ls as [|l ls IH]; intros ls1; [discriminate|].
  cbn [replaceSetup]. destruct (isSetupLine l) eqn:Hl.
  - intros [= <-]. cbn [List.find]. now rewrite Hx.
  - destruct (replaceSetup 0 x ls) as [ls'|] eqn:E; [|discriminate].
    intros [= <-]. cbn [List.find]. rewrite Hl. now apply IH.
Qed.

Lemma insertSetup_find x ls :
  isSetupLine x = true ->
  (forall l, In l ls -> isSetupLine l = false) ->
  (exists l, In l ls /\ isMidLine l = true) ->
  List.find isSetupLine (insertSetup 0 x ls) = Some x.
Proof.
  intros Hx. induction ls as [|l ls IH]; intros Hno [l0 [Hin Hmid]]; [destruct Hin|].
  cbn [insertSetup]. destruct (isMidLine l) eqn:Hl.
  - cbn [List.find]. rewrite (Hno l (or_introl eq_refl)). now rewrite Hx.
  - cbn [List.find]. rewrite (Hno l (or_introl eq_refl)). apply IH.
    + intros l' Hl'. apply Hno. now right.
    + destruct Hin as [<-|Hin]; [congruence|]. now exists l0.
Qed.

Lemma setSetupLines_find x ls :
  isSetupLine x = true ->
  (exists l, In l ls /\ (isSetupLine l || isMidLine l = true)) ->
  List.find isSetupLine (setSetupLines 0 x ls) = Some x.
Proof.
  intros Hx [l [Hin Hl]]. unfold setSetupLines.
  destruct (replaceSetup 0 x ls) as [ls1|] eqn:E.
  - now apply (replaceSetup_find x ls).
  - apply insertSetup_find; [exact Hx| |].
    + intros l' Hl'. now apply (replaceSetup_none_no_setup x ls).
    + exists l. split; [exact Hin|].
      rewrite (replaceSetup_none_no_setup x ls l E Hin) in Hl. exact Hl.
Qed.

(** X3: when the description has a media line, the lines before it are kept,
    at most one line is added, and if a line from the media line on starts
    with [a=setup:] or [a=mid:], the first [a=setup:] line from the media line
    on is the requested one. *)
Theorem setSdpSetupAttribute_sets_first_setup :
  forall sdp v m,
    findMedia (splitCRLF sdp) = Some m ->
    take m (splitCRLF (setSdpSetupAttribute sdp v)) = take m (splitCRLF sdp)
    /\ length (splitCRLF sdp) <= length (splitCRLF (setSdpSetupAttribute sdp v))
       <= S (length (splitCRLF sdp))
    /\ ((exists l, In l (drop m (splitCRLF sdp))
                   /\ (isSetupLine l || isMidLine l = true)) ->
        List.find isSetupLine (drop m (splitCRLF (setSdpSetupAttribute sdp v)))
        = Some (setupLine v)).
Proof.
  intros sdp v m Hm. rewrite (setSdpSetupAttribute_lines sdp v m Hm).
  split; [now apply setSetupLines_take|]. split; [apply setSetupLines_length|].
  intros Hex. rewrite setSetupLines_drop.
  apply setSetupLines_find; [apply setupLine_isSetupLine|exact Hex].
Qed.

(** X2, witness: a description whose media section has neither line. *)
Lemma setSdpSetupAttribute_nothing_to_set_witness :
  findMedia (splitCRLF bareMediaSdp) = Some 2
  /\ setSdpSetupAttribute bareMediaSdp active = bareMediaSdp.
Proof.
  split; [reflexivity|].
  apply setSdpSetupAttribute_nothing_to_set.
  intros m l Hm Hin. vm_compute in Hm. injection Hm as <-.
  vm_compute in Hin. destruct Hin as [<-|[<-|[]]]; split; reflexivity.
Defined.

(** X3, witness: an offer with a session-level and a media-level line. *)
Lemma setSdpSetupAttribute_sets_first_setup_witness :
  findMedia (splitCRLF offerSdp) = Some 2
  /\ List.find isSetupLine (drop 2 (splitCRLF (setSdpSetupAttribute offerSdp active)))
     = Some "a=setup:active"
  /\ take 2 (splitCRLF (setSdpSetupAttribute offerSdp active)) = ["v=0"; "a=setup:passive"].
Proof.
  split; [reflexivity|].
  destruct (setSdpSetupAttribute_sets_first_setup offerSdp active 2 eq_refl)
    as (Htake & _ & Hfind).
  split; [|exact Htake].
  apply Hfind. exists "a=mid:0". split; [vm_compute; tauto|reflexivity].
Defined.

(** ** The history handed to the chat session *)

(** X4: the converted history has one entry per message, in the same order
    and with the same text as its single part, and only the roles [user] and
    [model]: [tutor] becomes [model] and [system] becomes [user]. *)
Theorem convertToGeminiHistory_shape :
  forall h,
    length (convertToGeminiHistory h) = length h
    /\ List.map parts (convertToGeminiHistory h) = List.map (fun m => [text (content m)]) h
    /\ Forall (fun c => crole c = user \/ crole c = model) (convertToGeminiHistory h)
    /\ (forall i m, h !! i = Some m ->
          option_map crole (convertToGeminiHistory h !! i) = Some (convertRole (role m)))
    /\ (convertRole tutor = model /\ convertRole system = user
        /\ convertRole user = user /\ convertRole model = model).
Proof.
  intros h. unfold convertToGeminiHistory. split; [apply List.length_map|].
  split; [now rewrite List.map_map|]. split; [|split; [|repeat split]].
  - induction h as [|m h IH]; constructor; [|exact IH].
    cbn. destruct (role m); cbn; auto.
  - intros i m Hi. revert i Hi. induction h as [|m0 h IH]; intros [|i] Hi; try discriminate.
    + injection Hi as ->. reflexivity.
    + now apply IH.
Qed.

(** X4, witness: a system entry followed by a tutor entry. *)
Lemma convertToGeminiHistory_shape_witness :
  [systemEntry "algebra" "beginner"; {| role := tutor; content := "A name for a value." |}]
    !! 1 = Some {| role := tutor; content := "A name for a value." |}
  /\ option_map crole
       (convertToGeminiHistory
          [systemEntry "algebra" "beginner";
           {| role := tutor; content := "A name for a value." |}] !! 1)
     = Some model.
Proof.
  split; [reflexivity|].
  destruct (convertToGeminiHistory_shape
              [systemEntry "algebra" "beginner";
               {| role := tutor; content := "A name for a value." |}])
    as (_ & _ & _ & Hrole & _).
  apply (Hrole 1 {| role := tutor; content := "A name for a value." |}). reflexivity.
Defined.

(** ** The image data of a frame *)

Lemma split_without_comma s : hasComma s = false -> split comma s = [s].
Proof.
  induction s as [|c s IH]; [reflexivity|]. cbn [hasComma split].
  intros H. apply orb_false_elim in H as [-> H]. now rewrite (IH H).
Qed.

Lemma split_at_comma p r :
  hasComma p = false -> split comma (p +:+ String comma r) = p :: split comma r.
Proof.
  induction p as [|c p IH]; [reflexivity|]. cbn [hasComma]. intros H.
  apply orb_false_elim in H as [Hc H].
  change (String c p +:+ String comma r) with (String c (p +:+ String comma r)).
  cbn [split]. rewrite Hc, (IH H). reflexivity.
Qed.

(** X5: the image data is what stands between the first comma of the data URL
    and the next one; a URL without a comma has none, and then, as when
    nothing follows the comma, the tick makes no call and changes nothing,
    whatever the transcript buffer holds. *)
Theorem base64Of_data_url :
  forall header data,
    hasComma header = false ->
    hasComma data = false ->
    base64Of (header +:+ String comma data) = Some data
    /\ base64Of header = None
    /\ (forall env sdkOk w,
          captureScreenFrame_grabbed env (Grabbed header) sdkOk w = w
          /\ captureScreenFrame_grabbed env (Grabbed (header +:+ String comma EmptyString))
               sdkOk w = w).
Proof.
  intros header data Hh Hd.
  assert (Hnone : base64Of header = None)
    by (unfold base64Of; now rewrite (split_without_comma header Hh)).
  split; [|split; [exact Hnone|]].
  - unfold base64Of.
    now rewrite (split_at_comma header data Hh), (split_without_comma data Hd).
  - intros env sdkOk w. unfold captureScreenFrame_grabbed. rewrite Hnone.
    split; [reflexivity|].
    unfold base64Of. rewrite (split_at_comma header EmptyString Hh). reflexivity.
Qed.

(** X5, witness: the data URL of a JPEG frame. *)
Lemma base64Of_data_url_witness :
  hasComma "data:image/jpeg;base64" = false
  /\ hasComma "FRAME" = false
  /\ base64Of frameUrl = Some "FRAME".
Proof.
  split; [reflexivity|]. split; [reflexivity|].
  apply (base64Of_data_url "data:image/jpeg;base64" "FRAME"); reflexivity.
Defined.

(** ** Recognition results and errors *)

Lemma messagesOf_app l1 l2 : messagesOf (l1 ++ l2) = (messagesOf l1 ++ messagesOf l2)%list.
Proof. unfold messagesOf. apply flat_map_app. Qed.

Lemma finalTranscript_from_index earlier later :
  finalTranscript {| resultIndex := length earlier; results := (earlier ++ later)%list |}
  = finalTranscript {| resultIndex := 0; results := later |}.
Proof. unfold finalTranscript. cbn. now rewrite drop_app_length. Qed.

(** X6: a result event without a final transcript leaves the session as it is
    (in particular the transcript buffer) and sends at most its interim
    transcript; an event with a final transcript sends that one message,
    marked final, and no interim one; results before [resultIndex] do not
    count. *)
Theorem onresult_interim_and_final :
  forall ev w,
    (truthy (finalTranscript ev) = false ->
       withoutLog (onresultHandler ev w) = withoutLog w
       /\ messagesOf (emitted (onresultHandler ev w))
          = (messagesOf (emitted w)
             ++ if truthy (interimTranscript ev)
                then [{| mtype := speech_text; mcontent := interimTranscript ev;
                         minterim := Some true |}]
                else [])%list)
    /\ (truthy (finalTranscript ev) = true ->
          messagesOf (emitted (onresultHandler ev w))
          = (messagesOf (emitted w)
             ++ [{| mtype := speech_text; mcontent := finalTranscript ev;
                    minterim := Some false |}])%list)
    /\ (forall earlier later,
          finalTranscript {| resultIndex := length earlier;
                             results := (earlier ++ later)%list |}
          = finalTranscript {| resultIndex := 0; results := later |}).
Proof.
  intros ev w. split; [|split; [|apply finalTranscript_from_index]].
  - intros Hf. unfold onresultHandler. rewrite Hf.
    destruct (truthy (interimTranscript ev)).
    + split; [reflexivity|]. cbn. now rewrite messagesOf_app.
    + split; [reflexivity|]. now rewrite List.app_nil_r.
  - intros Hf. unfold onresultHandler. rewrite Hf. cbn. now rewrite messagesOf_app.
Qed.

(** X6, witness: an interim result in the listening session. *)
Lemma onresult_interim_and_final_witness :
  truthy (finalTranscript (heard false "and a con")) = false
  /\ withoutLog (onresultHandler (heard false "and a con") listeningSession)
     = withoutLog listeningSession.
Proof.
  split; [reflexivity|].
  destruct (onresult_interim_and_final (heard false "and a con") listeningSession)
    as [Hinterim _].
  apply Hinterim. reflexivity.
Defined.

(** X7: a recognition error never changes the session itself: no flag, no
    timer, no recogniser is touched.  For an error other than [not-allowed]
    nothing is sent either.  For [not-allowed], delivered to a running
    recogniser whose [onerror] handler is attached, exactly one message is
    sent, the advisory about the microphone permission; an event for a
    recogniser that does not exist, is not running or has no handler does
    nothing. *)
Theorem recognition_error_changes_nothing :
  forall env w id error,
    withoutLog (step env w (RecognizerError id error)) = withoutLog w
    /\ (String.eqb error "not-allowed" = false ->
        step env w (RecognizerError id error) = w)
    /\ (forall r,
          recognizers w !! id = Some r -> running r = true -> onerror r = true ->
          String.eqb error "not-allowed" = true ->
          emitted (step env w (RecognizerError id error))
          = (emitted w ++ [OnMessage (systemInfo microphoneDenied)])%list)
    /\ (recognizers w !! id = None
        \/ (exists r, recognizers w !! id = Some r
                      /\ (running r = false \/ onerror r = false)) ->
        step env w (RecognizerError id error) = w).
Proof.
  intros env w id error. cbn [step]. unfold deliver, onerrorHandler.
  split; [|split; [|split]].
  - destruct (recognizers w !! id) as [r|]; [|reflexivity].
    destruct (running r && onerror r); [|reflexivity].
    destruct (String.eqb error "no-speech"); [reflexivity|].
    destruct (String.eqb error "not-allowed"); reflexivity.
  - intros Hother. destruct (recognizers w !! id) as [r|]; [|reflexivity].
    destruct (running r && onerror r); [|reflexivity].
    destruct (String.eqb error "no-speech"); [reflexivity|]. now rewrite Hother.
  - intros r Hr Hrun Hon Hdenied. rewrite Hr, Hrun, Hon, Hdenied. cbn [andb].
    apply String.eqb_eq in Hdenied. subst error. reflexivity.
  - intros [Hnone|(r & Hr & [Hoff|Hoff])].
    + now rewrite Hnone.
    + now rewrite Hr, Hoff.
    + rewrite Hr, Hoff, andb_false_r. reflexivity.
Qed.

(** X7, witness: the listening recogniser reports a network error, then a
    denied permission. *)
Lemma recognition_error_changes_nothing_witness :
  String.eqb "network" "not-allowed" = false
  /\ step fullBrowser listeningSession (RecognizerError 1 "network") = listeningSession
  /\ recognizers listeningSession !! 1 = Some (setRunning true (attachHandlers newRecognition))
  /\ emitted (step fullBrowser listeningSession (RecognizerError 1 "not-allowed"))
     = (emitted listeningSession ++ [OnMessage (systemInfo microphoneDenied)])%list.
Proof.
  split; [reflexivity|].
  split.
  - destruct (recognition_error_changes_nothing fullBrowser listeningSession 1 "network")
      as (_ & Hquiet & _).
    apply Hquiet. reflexivity.
  - split; [reflexivity|].
    destruct (recognition_error_changes_nothing fullBrowser listeningSession 1 "not-allowed")
      as (_ & _ & Hadvised & _).
    apply (Hadvised (setRunning true (attachHandlers newRecognition))); reflexivity.
Defined.

(** ** The playback check *)

Lemma speakResponse_timers env t w :
  canSpeak env w = true ->
  timers (speakResponse env t w)
  = (timers w ++ [{| delay := 1000; callback := SpeakCheck |}])%list.
Proof.
  unfold canSpeak, speakResponse.
  destruct (speechSynthesis (this w)), (hasWindow env), (hasSpeechSynthesis env);
    try discriminate; reflexivity.
Qed.

(** X8: if the synthesiser drops the utterance without any event, the check
    scheduled by [speakResponse] resets [isSpeaking]; if the utterance is still
    in the queue when the check runs, the flag stays true and the utterance
    stays queued. *)
Theorem playback_check_resets_flag :
  forall env t w,
    canSpeak env w = true ->
    isSpeaking
      (state (this (run env (speakResponse env t w)
                      [SynthesisDrops; TimerFires (length (timers w))]))) = false
    /\ isSpeaking
         (state (this (run env (speakResponse env t w) [TimerFires (length (timers w))])))
       = true
    /\ synthQueue (run env (speakResponse env t w) [TimerFires (length (timers w))])
       = [newUtterance t].
Proof.
  intros env t w Hcan.
  pose proof (speakResponse_timers env t w Hcan) as Ht.
  pose proof (speakResponse_isSpeaking env t w Hcan) as Hs.
  pose proof (speakResponse_synthQueue env t w) as Hq. rewrite Hcan in Hq.
  unfold run. cbn [fold_left].
  split; [|split].
  - rewrite (step_TimerFires_last env (step env (speakResponse env t w) SynthesisDrops)
               (timers w) {| delay := 1000; callback := SpeakCheck |} Ht).
    cbn [callback runTimer step]. unfold speakCheck, speaking. cbn. rewrite Hs. reflexivity.
  - rewrite (step_TimerFires_last env (speakResponse env t w)
               (timers w) {| delay := 1000; callback := SpeakCheck |} Ht).
    cbn [callback runTimer]. unfold speakCheck, speaking. cbn. rewrite Hs, Hq. cbn. exact Hs.
  - rewrite (step_TimerFires_last env (speakResponse env t w)
               (timers w) {| delay := 1000; callback := SpeakCheck |} Ht).
    cbn [callback runTimer]. unfold speakCheck, speaking. cbn. rewrite Hs, Hq. cbn. exact Hq.
Qed.

(** X8, witness: a reply spoken in the listening session. *)
Lemma playback_check_resets_flag_witness :
  canSpeak fullBrowser listeningSession = true
  /\ isSpeaking
       (state (this (run fullBrowser (speakResponse fullBrowser "hello" listeningSession)
                       [SynthesisDrops; TimerFires (length (timers listeningSession))])))
     = false.
Proof.
  split; [reflexivity|].
  apply (playback_check_resets_flag fullBrowser "hello" listeningSession). reflexivity.
Defined.

(** ** A complete turn *)

(** X9: when the request is answered, the history has grown by the user entry
    and then the tutor entry, the subscribers got the user message and then
    the tutor message, the reply is the one utterance in the synthesiser's
    queue where speech is available, and [isProcessing] is false. *)
Theorem answered_turn_appends_user_then_tutor :
  forall env imageData speechText reply w,
    noApiKey env = false ->
    truthy speechText = true ->
    messageHistory
      (this (analyzeScreenAndSpeech_settled env (Replied reply)
               (fst (analyzeScreenAndSpeech env imageData speechText true w))))
    = (messageHistory (this w)
       ++ [{| role := user; content := questionMessage speechText |};
           {| role := tutor; content := reply |}])%list
    /\ messagesOf
         (emitted (analyzeScreenAndSpeech_settled env (Replied reply)
                     (fst (analyzeScreenAndSpeech env imageData speechText true w))))
       = (messagesOf (emitted w)
          ++ [{| mtype := user_message; mcontent := questionMessage speechText;
                 minterim := None |};
              {| mtype := tutor_message; mcontent := reply; minterim := None |}])%list
    /\ synthQueue
         (analyzeScreenAndSpeech_settled env (Replied reply)
            (fst (analyzeScreenAndSpeech env imageData speechText true w)))
       = (if canSpeak env w then [newUtterance reply] else synthQueue w)
    /\ isProcessing
         (state (this (analyzeScreenAndSpeech_settled env (Replied reply)
                         (fst (analyzeScreenAndSpeech env imageData speechText true w)))))
       = false.
Proof.
  intros env img sp reply w Hkey Hsp.
  unfold analyzeScreenAndSpeech. rewrite Hkey, Hsp. cbn [negb fst].
  unfold analyzeScreenAndSpeech_settled, speakResponse, canSpeak.
  destruct (speechSynthesis (this w)) eqn:Hu, (hasWindow env), (hasSpeechSynthesis env);
    cbn; rewrite ?Hu; cbn;
    repeat split; rewrite <- ?List.app_assoc; try reflexivity;
    rewrite !messagesOf_app; cbn; rewrite <- ?List.app_assoc, ?List.app_nil_r;
    reflexivity.
Qed.

(** X9, witness: a question answered in the listening session. *)
Lemma answered_turn_appends_user_then_tutor_witness :
  noApiKey fullBrowser = false
  /\ truthy "what is a variable" = true
  /\ List.map role
       (messageHistory
          (this (analyzeScreenAndSpeech_settled fullBrowser (Replied "A name for a value.")
                   (fst (analyzeScreenAndSpeech fullBrowser "FRAME" "what is a variable" true
                           listeningSession)))))
     = [system; user; tutor].
Proof.
  split; [reflexivity|]. split; [reflexivity|].
  destruct (answered_turn_appends_user_then_tutor fullBrowser "FRAME" "what is a variable"
              "A name for a value." listeningSession eq_refl eq_refl) as [Hhistory _].
  rewrite Hhistory. reflexivity.
Defined.

(** ** Denied acquisitions *)

Lemma advised_refl w : advised 0 w w.
Proof.
  repeat split. exists []. cbn. rewrite List.app_nil_r. repeat split. constructor.
Qed.

Lemma advised_trans k1 k2 w w1 w2 :
  advised k1 w w1 -> advised k2 w1 w2 -> advised (k1 + k2) w w2.
Proof.
  intros (Hs & Ht & Hp & Hr & Hsr & Ha & ms1 & He1 & Hl1 & Hf1)
         (Hs2 & Ht2 & Hp2 & Hr2 & Hsr2 & Ha2 & ms2 & He2 & Hl2 & Hf2).
  repeat split; try congruence.
  exists (ms1 ++ ms2)%list. repeat split.
  - rewrite He2, He1, List.map_app, List.app_assoc. reflexivity.
  - rewrite List.length_app. congruence.
  - apply Forall_app. now split.
Qed.

Lemma advised_one c w : advised 1 w (sendMessage (systemInfo c) w).
Proof.
  repeat split. exists [systemInfo c]. repeat split. repeat constructor.
Qed.

Lemma tryStartAudio_denied config e w :
  advised (if attempts (Config.audio config) (isAudioActive (state (this w)))
           then microphoneAdvisories e else 0)
          w (tryStartAudio config (Denied e) w).
Proof.
  unfold tryStartAudio, attempts.
  destruct (Config.audio config && negb (isAudioActive (state (this w))));
    [|apply advised_refl].
  destruct e as [|msg]; cbn.
  - apply (advised_trans 1 1 w (sendMessage (systemInfo microphoneDenied) w));
      apply advised_one.
  - apply advised_one.
Qed.

(** A failed start of a visual modality: one advisory, and the tracks of the
    stream held before are stopped. *)
Lemma tryStartVideo_denied env config e w :
  advised (if attempts (Config.video config) (isVideoActive (state (this w))) then 1 else 0)
          w (tryStartVideo env config (Denied e) w).
Proof.
  unfold tryStartVideo, attempts.
  destruct (Config.video config && negb (isVideoActive (state (this w))));
    [|apply advised_refl].
  unfold startVideoStream, cameraCatch.
  destruct (localVideoStream (this w)), (hasMediaDevices env), e;
    cbn; repeat split; eexists [_]; repeat split; repeat constructor.
Qed.

Lemma tryStartScreen_denied config e w :
  advised (if attempts (Config.screen config) (isScreenActive (state (this w))) then 1 else 0)
          w (tryStartScreen config (Denied e) w).
Proof.
  unfold tryStartScreen, attempts.
  destruct (Config.screen config && negb (isScreenActive (state (this w))));
    [|apply advised_refl].
  unfold startScreenStream, screenCatch.
  destruct (localScreenStream (this w)), e;
    cbn; repeat split; eexists [_]; repeat split; repeat constructor.
Qed.

Lemma tryStartCapture_advised config w : advised 0 w (tryStartCapture config w).
Proof.
  unfold tryStartCapture. destruct (_ && _); [|apply advised_refl].
  repeat split. exists []. cbn. rewrite List.app_nil_r. repeat split. constructor.
Qed.

(** X10: a [startMediaStream] call whose acquisitions are all denied changes no
    flag, schedules no timer, starts no request and touches no recogniser; it
    only sends advisories: for each modality it attempted (asked for and not
    yet active) one, and a second one for the microphone when the error is a
    permission error. *)
Theorem denied_acquisitions_only_advise :
  forall env config ea ev es w,
    advised
      ((if attempts (Config.audio config) (isAudioActive (state (this w)))
        then microphoneAdvisories ea else 0)
       + (if attempts (Config.video config) (isVideoActive (state (this w))) then 1 else 0)
       + (if attempts (Config.screen config) (isScreenActive (state (this w))) then 1 else 0))
      w (startMediaStream env config (Denied ea) (Denied ev) (Denied es) w).
Proof.
  intros env config ea ev es w. unfold startMediaStream.
  pose proof (tryStartAudio_denied config ea w) as Ha.
  set (w1 := tryStartAudio config (Denied ea) w) in *.
  pose proof (tryStartVideo_denied env config ev w1) as Hv.
  set (w2 := tryStartVideo env config (Denied ev) w1) in *.
  pose proof (tryStartScreen_denied config es w2) as Hs.
  set (w3 := tryStartScreen config (Denied es) w2) in *.
  pose proof (tryStartCapture_advised config w3) as Hc.
  assert (Hs1 : state (this w1) = state (this w)) by apply Ha.
  assert (Hs2 : state (this w2) = state (this w)).
  { destruct Hv as [Hv _]. congruence. }
  rewrite Hs1 in Hv. rewrite Hs2 in Hs.
  pose proof (advised_trans _ _ _ _ _ (advised_trans _ _ _ _ _
                (advised_trans _ _ _ _ _ Ha Hv) Hs) Hc) as H.
  rewrite Nat.add_0_r in H. exact H.
Qed.

(** ** Timers after the microphone is off *)

Lemma stopAudioStream_inactive w : isAudioActive (state (this (stopAudioStream w))) = false.
Proof. rewrite stopAudioStream_state. reflexivity. Qed.

(** X11: while [isAudioActive] is false, which it is after [stopAudioStream],
    each pending recognition timer (the delayed start, restart, creation and
    start of a recogniser) does nothing when it fires: no recogniser is
    created or started. *)
Theorem recognition_timers_need_active_audio :
  forall env w i t,
    timers w !! i = Some t ->
    callback t <> SpeakCheck ->
    (isAudioActive (state (this w)) = false ->
       step env w (TimerFires i) = set_timers (delete i (timers w)) w)
    /\ (timers (stopAudioStream w) = timers w
        /\ step env (stopAudioStream w) (TimerFires i)
           = set_timers (delete i (timers w)) (stopAudioStream w)).
Proof.
  assert (Hgen : forall env w i t,
            timers w !! i = Some t -> callback t <> SpeakCheck ->
            isAudioActive (state (this w)) = false ->
            step env w (TimerFires i) = set_timers (delete i (timers w)) w).
  { intros env w i t Hi Hcb Hoff. cbn [step]. rewrite Hi.
    destruct (restartRecognition_inactive env (set_timers (delete i (timers w)) w) Hoff)
      as (Hr & Hc & Hs).
    destruct (callback t); [exact Hr|exact Hr|exact Hc|exact Hs|congruence]. }
  intros env w i t Hi Hcb. split; [now apply (Hgen env w i t)|].
  assert (Ht : timers (stopAudioStream w) = timers w).
  { unfold stopAudioStream.
    destruct (speechRecognition (this w)) eqn:Hr, (localAudioStream (this w)) eqn:Hs;
      repeat (progress (cbn; rewrite ?Hr, ?Hs)); reflexivity. }
  split; [exact Ht|].
  rewrite <- Ht at 1. apply (Hgen env (stopAudioStream w) i t).
  - now rewrite Ht.
  - exact Hcb.
  - apply stopAudioStream_inactive.
Qed.

(** X11, witness: the start timer left when the microphone is switched off. *)
Lemma recognition_timers_need_active_audio_witness :
  timers recreated !! 0 = Some {| delay := 300; callback := StartDelay |}
  /\ recognizers (step fullBrowser (stopAudioStream recreated) (TimerFires 0))
     = recognizers (stopAudioStream recreated).
Proof.
  split; [reflexivity|].
  destruct (recognition_timers_need_active_audio fullBrowser recreated 0
              {| delay := 300; callback := StartDelay |} eq_refl) as [_ [_ Hstep]];
    [discriminate|].
  rewrite Hstep. reflexivity.
Defined.

(** ** Closing the session *)

Lemma stopVideoTracks_videoEnded s : videoEnded (stopVideoTracks s).
Proof.
  unfold videoEnded, stopVideoTracks. induction s as [|t s IH]; constructor; [|exact IH].
  destruct (isVideo t) eqn:E; [reflexivity|]. intros H. congruence.
Qed.

Lemma close_this env w :
  hasWindow env = true ->
  this (close env w)
  = {| localAudioStream := None;
       localVideoStream := option_map stopVideoTracks (localVideoStream (this w));
       localScreenStream := option_map stopVideoTracks (localScreenStream (this w));
       speechRecognition := None;
       speechSynthesis := speechSynthesis (this w);
       state := initialState;
       messageHistory := messageHistory (this w);
       subject := subject (this w);
       level := level (this w);
       captureInterval := None;
       speechToTextResult := speechToTextResult (this w) |}.
Proof.
  intros Hwin. unfold close. rewrite Hwin. cbn [negb].
  unfold stopScreenStream, stopVideoStream, stopAudioStream.
  destruct (hasSpeechSynthesis env); stop_cases w; reflexivity.
Qed.

Lemma close_world env w :
  hasWindow env = true ->
  recognizers (close env w) = releaseRecognizer w
  /\ synthQueue (close env w) = (if hasSpeechSynthesis env then [] else synthQueue w)
  /\ timers (close env w) = timers w
  /\ pending (close env w) = pending w
  /\ requests (close env w) = requests w.
Proof.
  intros Hwin. unfold close, releaseRecognizer. rewrite Hwin. cbn [negb].
  unfold stopScreenStream, stopVideoStream, stopAudioStream.
  destruct (hasSpeechSynthesis env); stop_cases w; repeat split; reflexivity.
Qed.

(** X12: in a browser, after [close] all six flags are false, the microphone
    stream, the recogniser reference and the interval timer are gone, the
    referenced recogniser has lost its handlers and is stopped, no video
    track of the camera or screen stream is live, and the synthesiser's queue
    is empty; the history stays, and neither the pending timers nor the
    pending promises are cancelled. *)
Theorem close_releases_capabilities :
  forall env w,
    hasWindow env = true ->
    state (this (close env w)) = initialState
    /\ localAudioStream (this (close env w)) = None
    /\ speechRecognition (this (close env w)) = None
    /\ captureInterval (this (close env w)) = None
    /\ recognizers (close env w) = releaseRecognizer w
    /\ (forall s, localVideoStream (this (close env w)) = Some s -> videoEnded s)
    /\ (forall s, localScreenStream (this (close env w)) = Some s -> videoEnded s)
    /\ (hasSpeechSynthesis env = true -> synthQueue (close env w) = [])
    /\ messageHistory (this (close env w)) = messageHistory (this w)
    /\ timers (close env w) = timers w
    /\ pending (close env w) = pending w.
Proof.
  intros env w Hwin.
  pose proof (close_this env w Hwin) as Hthis.
  destruct (close_world env w Hwin) as (Hr & Hq & Ht & Hp & _).
  rewrite Hthis. cbn.
  repeat split; try assumption.
  - intros s Hs. destruct (localVideoStream (this w)); [|discriminate].
    injection Hs as <-. apply stopVideoTracks_videoEnded.
  - intros s Hs. destruct (localScreenStream (this w)); [|discriminate].
    injection Hs as <-. apply stopVideoTracks_videoEnded.
  - intros Hsyn. now rewrite Hq, Hsyn.
Qed.

(** X12, witness: the session closed while its request is in flight. *)
Lemma close_releases_capabilities_witness :
  hasWindow fullBrowser = true
  /\ state (this (close fullBrowser requestInFlight)) = initialState
  /\ pending (close fullBrowser requestInFlight) = pending requestInFlight.
Proof.
  split; [reflexivity|].
  destruct (close_releases_capabilities fullBrowser requestInFlight eq_refl)
    as (Hstate & _ & _ & _ & _ & _ & _ & _ & _ & _ & Hpending).
  split; [exact Hstate|exact Hpending].
Defined.

(** X13: [close] does not disarm a request in flight: when its reply arrives
    afterwards, the tutor entry is still appended to the history and, where
    speech is available, the reply is queued for playback and [isSpeaking] is
    set again; the other five flags stay false. *)
Theorem reply_after_close_is_spoken :
  forall env w i rq reply,
    hasWindow env = true ->
    hasSpeechSynthesis env = true ->
    speechSynthesis (this w) <> None ->
    pending w !! i = Some (AwaitGenerate rq) ->
    messageHistory (this (step env (close env w) (GenerateSettles i (Replied reply))))
    = (messageHistory (this w) ++ [{| role := tutor; content := reply |}])%list
    /\ synthQueue (step env (close env w) (GenerateSettles i (Replied reply)))
       = [newUtterance reply]
    /\ state (this (step env (close env w) (GenerateSettles i (Replied reply))))
       = setFlag IsSpeaking true initialState.
Proof.
  intros env w i rq reply Hwin Hsyn Hu Hi.
  pose proof (close_this env w Hwin) as Hthis.
  destruct (close_world env w Hwin) as (_ & Hq & _ & Hp & _).
  rewrite Hsyn in Hq.
  destruct (speechSynthesis (this w)) as [u|]; [clear Hu|congruence].
  set (w' := close env w) in *. clearbody w'.
  destruct w' as [t' recs q ts ps em rqs ans]. cbn in Hthis, Hq, Hp. subst t' q ps.
  cbn [step pending]. rewrite Hi.
  unfold clearSpeech, analyzeScreenAndSpeech_settled, speakResponse.
  cbn. rewrite Hwin, Hsyn. cbn. repeat split; reflexivity.
Qed.

(** X13, witness: the reply to that request, arriving after the close. *)
Lemma reply_after_close_is_spoken_witness :
  pending requestInFlight !! 0
  = Some (AwaitGenerate (requestOf "algebra" "beginner" "FRAME" "what is a variable"))
  /\ isSpeaking
       (state (this (step fullBrowser (close fullBrowser requestInFlight)
                       (GenerateSettles 0 (Replied "A name for a value.")))))
     = true.
Proof.
  split; [reflexivity|].
  destruct (reply_after_close_is_spoken fullBrowser requestInFlight 0
              (requestOf "algebra" "beginner" "FRAME" "what is a variable")
              "A name for a value." eq_refl eq_refl) as (_ & _ & Hstate);
    [vm_compute; discriminate|reflexivity|].
  rewrite Hstate. reflexivity.
Defined.

(** ** From the microphone grant to a listening recogniser *)

Lemma length_releaseRecognizer w : length (releaseRecognizer w) = length (recognizers w).
Proof.
  unfold releaseRecognizer. destruct (speechRecognition (this w)); [|reflexivity].
  now rewrite !length_alter.
Qed.

(** X14: in a browser with speech recognition, once the microphone is granted
    and the three chained timers of [startAudioStream] (500 ms, 500 ms,
    300 ms) have fired, the session refers to a fresh recogniser, appended to
    the store, running and with its three handlers attached; a recogniser
    referenced before has lost its handlers and is stopped; the microphone
    stream is held, [isAudioActive] is true and no timer of the chain is
    left. *)
Theorem microphone_grant_starts_listening :
  forall env s w,
    hasWindow env = true ->
    hasSpeechRecognition env = true ->
    run env (fst (startAudioStream (Granted s) w))
      [TimerFires (length (timers w)); TimerFires (length (timers w));
       TimerFires (length (timers w))]
    = set_recognizers
        (releaseRecognizer w ++ [setRunning true (attachHandlers newRecognition)])%list
        (onThis (set_speechRecognition (Some (length (recognizers w))))
           (updateState [(IsAudioActive, true)]
              (onThis (set_localAudioStream (Some s)) w))).
Proof.
  intros env s w Hwin Hsr.
  unfold run. cbn [fold_left startAudioStream fst].
  set (w0 := updateState [(IsAudioActive, true)] (onThis (set_localAudioStream (Some s)) w)).
  assert (Hact : isAudioActive (state (this w0)) = true) by reflexivity.
  assert (Hts : timers w0 = timers w) by reflexivity.
  assert (Hrs : recognizers w0 = recognizers w) by reflexivity.
  assert (Href : speechRecognition (this w0) = speechRecognition (this w)) by reflexivity.
  assert (Hrel : releaseRecognizer w0 = releaseRecognizer w).
  { unfold releaseRecognizer. now rewrite Href, Hrs. }
  rewrite <- Hts, <- Hrs, <- Hrel. clearbody w0. clear Hts Hrs Href Hrel w s.
  set (w1 := set_recognizers (releaseRecognizer w0)
               (onThis (set_speechRecognition None) w0)).
  assert (H1 : step env (setTimeout AudioStartDelay 500 w0) (TimerFires (length (timers w0)))
               = setTimeout CreateDelay 500 w1).
  { rewrite (step_TimerFires_last env (setTimeout AudioStartDelay 500 w0) (timers w0)
               {| delay := 500; callback := AudioStartDelay |} eq_refl).
    cbn [callback runTimer]. unfold restartRecognition, safeStartSpeechRecognition.
    cbn. rewrite Hact, Hwin. subst w1. unfold releaseRecognizer.
    destruct w0 as [t ? ? ? ? ? ? ?]. destruct t as [? ? ? [?|] ? ? ? ? ? ? ?]; reflexivity. }
  rewrite H1. clear H1.
  assert (Hact1 : isAudioActive (state (this w1)) = true) by exact Hact.
  assert (Hts1 : timers w1 = timers w0) by reflexivity.
  assert (Hrs1 : recognizers w1 = releaseRecognizer w0) by reflexivity.
  rewrite <- Hts1.
  set (w2 := setupSpeechRecognition
               (onThis (set_speechRecognition (Some (length (recognizers w1))))
                  (set_recognizers (recognizers w1 ++ [newRecognition]) w1))).
  assert (H2 : step env (setTimeout CreateDelay 500 w1) (TimerFires (length (timers w1)))
               = setTimeout StartDelay 300 w2).
  { rewrite (step_TimerFires_last env (setTimeout CreateDelay 500 w1) (timers w1)
               {| delay := 500; callback := CreateDelay |} eq_refl).
    cbn [callback runTimer]. unfold createRecognition. subst w2. clearbody w1.
    cbn. rewrite Hact1, Hsr. destruct w1; reflexivity. }
  rewrite H2. clear H2.
  rewrite (step_TimerFires_last env (setTimeout StartDelay 300 w2) (timers w1)
             {| delay := 300; callback := StartDelay |} eq_refl).
  cbn [callback runTimer]. unfold startRecognition. cbn. rewrite Hact.
  rewrite alter_last, (list_lookup_middle _ [] _ _ eq_refl). cbn.
  unfold updateRecognizer. cbn. rewrite alter_last, alter_last, length_releaseRecognizer.
  subst w1. destruct w0 as [t ? ? ? ? ? ? ?]. destruct t. reflexivity.
Qed.

(** X14, witness: the microphone of a new session. *)
Lemma microphone_grant_starts_listening_witness :
  hasWindow fullBrowser = true
  /\ hasSpeechRecognition fullBrowser = true
  /\ speechRecognition
       (this (run fullBrowser
                (fst (startAudioStream (Granted [liveAudioTrack])
                       (algebraSession fullBrowser)))
                [TimerFires 0; TimerFires 0; TimerFires 0]))
     = Some 1.
Proof.
  split; [reflexivity|]. split; [reflexivity|].
  exact (f_equal (fun w => speechRecognition (this w))
           (microphone_grant_starts_listening fullBrowser [liveAudioTrack]
              (algebraSession fullBrowser) eq_refl eq_refl)).
Defined.

(** ** The share ended from the browser *)

Lemma hasLiveVideo_getVideoTracks s :
  hasLiveVideo s = true -> getVideoTracks s <> [].
Proof.
  unfold hasLiveVideo, getVideoTracks. induction s as [|t s IH]; cbn; [discriminate|].
  destruct (isVideo t); cbn; [discriminate|exact IH].
Qed.

Lemma hasLiveVideo_armed s :
  hasLiveVideo s = true ->
  List.existsb (fun t => isVideo t && isLive t && onended t)
    (forEachVideoTrack (fun t => enable (setOnended t)) s) = true.
Proof.
  unfold hasLiveVideo, forEachVideoTrack. induction s as [|t s IH]; cbn; [discriminate|].
  intros H. apply orb_true_iff in H. destruct H as [H|H].
  - apply andb_true_iff in H. destruct H as [Hv Hl]. rewrite Hv.
    unfold isVideo, isLive in *. cbn. destruct (kind t), (readyState t); try discriminate.
    reflexivity.
  - rewrite (IH H). apply orb_true_r.
Qed.

Lemma stopVideoTracks_unarmed s :
  List.existsb (fun t => isVideo t && isLive t && onended t) (stopVideoTracks s) = false.
Proof.
  unfold stopVideoTracks. induction s as [|t s IH]; cbn; [reflexivity|].
  rewrite IH, orb_false_r. destruct (isVideo t) eqn:E.
  - unfold isLive. cbn. now rewrite andb_false_r.
  - now rewrite E.
Qed.

Lemma startScreenStream_granted s w :
  hasLiveVideo s = true ->
  localScreenStream (this (fst (startScreenStream (Granted s) w)))
  = Some (forEachVideoTrack (fun t => enable (setOnended t)) s)
  /\ isScreenActive (state (this (fst (startScreenStream (Granted s) w)))) = true
  /\ captureInterval (this (fst (startScreenStream (Granted s) w))) = Some capturePeriod
  /\ snd (startScreenStream (Granted s) w) = None.
Proof.
  intros H. apply hasLiveVideo_getVideoTracks in H. unfold startScreenStream.
  destruct (getVideoTracks s); [congruence|].
  destruct (localScreenStream (this w)); repeat split; reflexivity.
Qed.

Lemma stopScreenStream_held s w :
  localScreenStream (this w) = Some s ->
  localScreenStream (this (stopScreenStream w)) = Some (stopVideoTracks s)
  /\ isScreenActive (state (this (stopScreenStream w))) = false
  /\ captureInterval (this (stopScreenStream w)) = None.
Proof.
  intros H. unfold stopScreenStream. rewrite H.
  destruct w as [t ? ? ? ? ? ? ?]. destruct t as [? ? ? ? ? ? ? ? ? [?|] ?];
    repeat split; reflexivity.
Qed.

(** X15: when the user ends a share that was started successfully (the stream
    has a live video track), the track's [onended] handler does what
    [stopScreenStream] does: [isScreenActive] becomes false, the interval
    timer is cleared, and no video track of the stream is live.  The session
    carries no error; a tick of the interval or another end event afterwards
    changes nothing. *)
Theorem ended_share_stops_sampling :
  forall env s w,
    hasLiveVideo s = true ->
    let shared := fst (startScreenStream (Granted s) w) in
    let after := step env shared ScreenTrackEnds in
    snd (startScreenStream (Granted s) w) = None
    /\ isScreenActive (state (this shared)) = true
    /\ captureInterval (this shared) = Some capturePeriod
    /\ after = stopScreenStream shared
    /\ isScreenActive (state (this after)) = false
    /\ captureInterval (this after) = None
    /\ (exists s', localScreenStream (this after) = Some s' /\ videoEnded s')
    /\ step env after IntervalFires = after
    /\ step env after ScreenTrackEnds = after.
Proof.
  intros env s w Hlive shared after.
  destruct (startScreenStream_granted s w Hlive) as (Hs & Ha & Hc & He).
  fold shared in Hs, Ha, Hc.
  assert (Hafter : after = stopScreenStream shared).
  { subst after. cbn [step]. unfold screenTrackEnds.
    rewrite Hs, (hasLiveVideo_armed s Hlive). reflexivity. }
  destruct (stopScreenStream_held _ shared Hs) as (Hs' & Ha' & Hc').
  rewrite <- Hafter in Hs', Ha', Hc'.
  repeat split; try assumption.
  - eexists. split; [exact Hs'|apply stopVideoTracks_videoEnded].
  - cbn [step]. now rewrite Hc'.
  - cbn [step]. unfold screenTrackEnds. now rewrite Hs', stopVideoTracks_unarmed.
Qed.

(** X15, witness: a share of one live video track. *)
Lemma ended_share_stops_sampling_witness :
  hasLiveVideo [liveVideoTrack] = true
  /\ captureInterval
       (this (step fullBrowser
                (fst (startScreenStream (Granted [liveVideoTrack])
                        (algebraSession fullBrowser)))
                ScreenTrackEnds))
     = None.
Proof.
  split; [reflexivity|].
  destruct (ended_share_stops_sampling fullBrowser [liveVideoTrack]
              (algebraSession fullBrowser) eq_refl)
    as (_ & _ & _ & _ & _ & Hc & _).
  exact Hc.
Defined.

(** ** The dialogue with the model *)

Lemma dialogue_startAudioStream r w : dialogue (fst (startAudioStream r w)) = dialogue w.
Proof. unfold startAudioStream. frame. Qed.

Lemma dialogue_startVideoStream env r w :
  dialogue (fst (startVideoStream env r w)) = dialogue w.
Proof. unfold startVideoStream, cameraCatch. frame. Qed.

Lemma dialogue_startScreenStream r w : dialogue (fst (startScreenStream r w)) = dialogue w.
Proof. unfold startScreenStream, screenCatch. frame. Qed.

Lemma dialogue_tryStartAudio config ra w : dialogue (tryStartAudio config ra w) = dialogue w.
Proof.
  unfold tryStartAudio. destruct (_ && _); [|reflexivity].
  pose proof (dialogue_startAudioStream ra w) as H.
  destruct (startAudioStream ra w) as [w' [e|]]; exact H.
Qed.

Lemma dialogue_startMediaStream env config ra rv rs w :
  dialogue (startMediaStream env config ra rv rs w) = dialogue w.
Proof.
  unfold startMediaStream, tryStartCapture, tryStartScreen, tryStartVideo.
  destruct (Config.screen config && isScreenActive _);
    [change (dialogue (startScreenCapture ?x)) with (dialogue x)|];
    (destruct (Config.screen config && negb _); [rewrite dialogue_startScreenStream|]);
    (destruct (Config.video config && negb _); [rewrite dialogue_startVideoStream|]);
    apply dialogue_tryStartAudio.
Qed.

Lemma dialogue_stopAudioStream w : dialogue (stopAudioStream w) = dialogue w.
Proof. unfold stopAudioStream. frame. Qed.

Lemma dialogue_stopVideoStream w : dialogue (stopVideoStream w) = dialogue w.
Proof. unfold stopVideoStream. frame. Qed.

Lemma dialogue_stopScreenStream w : dialogue (stopScreenStream w) = dialogue w.
Proof. unfold stopScreenStream. frame. Qed.

Lemma dialogue_close env w : dialogue (close env w) = dialogue w.
Proof.
  assert (H : dialogue (stopScreenStream (stopVideoStream (stopAudioStream w))) = dialogue w).
  { now rewrite dialogue_stopScreenStream, dialogue_stopVideoStream,
      dialogue_stopAudioStream. }
  unfold close. destruct (negb (hasWindow env)); [exact H|].
  destruct (hasSpeechSynthesis env); exact H.
Qed.

Lemma dialogue_safeStartSpeechRecognition env w :
  dialogue (safeStartSpeechRecognition env w) = dialogue w.
Proof. unfold safeStartSpeechRecognition. frame. Qed.

Lemma dialogue_restartRecognition env w : dialogue (restartRecognition env w) = dialogue w.
Proof.
  unfold restartRecognition. destruct (isAudioActive _); [|reflexivity].
  apply dialogue_safeStartSpeechRecognition.
Qed.

Lemma dialogue_createRecognition env w : dialogue (createRecognition env w) = dialogue w.
Proof. unfold createRecognition. frame. Qed.

Lemma dialogue_startRecognition w : dialogue (startRecognition w) = dialogue w.
Proof. unfold startRecognition. frame. Qed.

Lemma dialogue_speakCheck w : dialogue (speakCheck w) = dialogue w.
Proof. unfold speakCheck. frame. Qed.

Lemma dialogue_runTimer env cb w : dialogue (runTimer env cb w) = dialogue w.
Proof.
  destruct cb; cbn [runTimer];
    auto using dialogue_restartRecognition, dialogue_createRecognition,
      dialogue_startRecognition, dialogue_speakCheck.
Qed.

Lemma dialogue_onresultHandler ev w : dialogue (onresultHandler ev w) = dialogue w.
Proof. unfold onresultHandler. frame. Qed.

Lemma dialogue_onerrorHandler error w : dialogue (onerrorHandler error w) = dialogue w.
Proof. unfold onerrorHandler. frame. Qed.

Lemma dialogue_onendHandler w : dialogue (onendHandler w) = dialogue w.
Proof. unfold onendHandler. frame. Qed.

Lemma dialogue_deliver id attached handler w :
  (forall w', dialogue (handler w') = dialogue w') ->
  dialogue (deliver id attached handler w) = dialogue w.
Proof. intros H. unfold deliver. repeat break_match; auto. Qed.

Lemma dialogue_recognizerEnds id w : dialogue (recognizerEnds id w) = dialogue w.
Proof.
  unfold recognizerEnds. repeat break_match; try reflexivity.
  rewrite dialogue_onendHandler. reflexivity.
Qed.

Lemma dialogue_utteranceLeaves attached handler w :
  (forall w', dialogue (handler w') = dialogue w') ->
  dialogue (utteranceLeaves attached handler w) = dialogue w.
Proof.
  intros H. unfold utteranceLeaves. repeat break_match; try reflexivity.
  rewrite H. reflexivity.
Qed.

Lemma dialogue_screenTrackEnds w : dialogue (screenTrackEnds w) = dialogue w.
Proof.
  unfold screenTrackEnds. repeat break_match; auto using dialogue_stopScreenStream.
Qed.

Lemma dialogue_speakResponse env t w : dialogue (speakResponse env t w) = dialogue w.
Proof. unfold speakResponse. frame. Qed.

Lemma dialogue_captureScreenFrame env w :
  dialogue (captureScreenFrame env w) = dialogue w
  \/ exists track,
       dialogue (captureScreenFrame env w)
       = (messageHistory (this w), subject (this w), level (this w), requests w,
          (pending w ++ [AwaitGrabFrame track])%list).
Proof. unfold captureScreenFrame. repeat break_match; eauto. Qed.

Lemma dialogue_captureScreenFrame_grabbed env g sdkOk w :
  dialogue (captureScreenFrame_grabbed env g sdkOk w) = dialogue w
  \/ (noApiKey env = false
      /\ exists question rq,
           dialogue (captureScreenFrame_grabbed env g sdkOk w)
           = ((messageHistory (this w) ++ [{| role := user; content := question |}])%list,
              subject (this w), level (this w),
              (requests w ++ [rq])%list, (pending w ++ [AwaitGenerate rq])%list)).
Proof.
  unfold captureScreenFrame_grabbed.
  destruct g as [url|]; [|now left].
  destruct (base64Of url) as [b|]; [|now left].
  destruct (negb (truthy b)); [now left|].
  destruct (truthy (speechToTextResult (this w))) eqn:Hsp; [|now left].
  unfold analyzeScreenAndSpeech.
  destruct (noApiKey env); [now left|].
  destruct sdkOk; cbn [negb]; [|now left].
  rewrite Hsp. right. split; [reflexivity|]. eexists _, _. reflexivity.
Qed.

Lemma dialogue_settled env o w :
  dialogue (clearSpeech (analyzeScreenAndSpeech_settled env o w))
  = (match o with
     | Replied t => (messageHistory (this w) ++ [{| role := tutor; content := t |}])%list
     | _ => messageHistory (this w)
     end, subject (this w), level (this w), requests w, pending w).
Proof.
  unfold analyzeScreenAndSpeech_settled. destruct o as [t| |]; try reflexivity.
  change (dialogue (clearSpeech (updateState ?p ?x))) with (dialogue x).
  rewrite dialogue_speakResponse. reflexivity.
Qed.

Lemma entries_snoc r h m :
  entries r (h ++ [m]) = entries r h + (if isRole r m then 1 else 0).
Proof.
  unfold entries. rewrite List.filter_app, List.length_app. cbn.
  destruct (isRole r m); reflexivity.
Qed.

Lemma awaited_snoc ps p :
  awaited (ps ++ [p]) = awaited ps + (if isAwaitGenerate p then 1 else 0).
Proof.
  unfold awaited. rewrite List.filter_app, List.length_app. cbn.
  destruct (isAwaitGenerate p); reflexivity.
Qed.

Lemma awaited_delete ps i p :
  ps !! i = Some p ->
  awaited ps = awaited (delete i ps) + (if isAwaitGenerate p then 1 else 0).
Proof.
  revert i. induction ps as [|q ps IH]; intros [|i] Hi; try discriminate.
  - injection Hi as ->. unfold awaited. change (delete 0 (p :: ps)) with ps.
    cbn [List.filter]. destruct (isAwaitGenerate p); cbn [length]; lia.
  - specialize (IH i Hi). unfold awaited in *.
    change (delete (S i) (q :: ps)) with (q :: delete i ps).
    cbn [List.filter]. destruct (isAwaitGenerate q); cbn [length]; lia.
Qed.

Lemma entries_total h :
  length h = entries system h + entries model h + entries user h + entries tutor h.
Proof.
  unfold entries in *. induction h as [|m h IH]; [reflexivity|].
  cbn [List.filter].
  destruct (isRole system m) eqn:E1, (isRole model m) eqn:E2, (isRole user m) eqn:E3,
    (isRole tutor m) eqn:E4;
    unfold isRole in E1, E2, E3, E4; destruct (role m); try discriminate;
    cbn [length]; lia.
Qed.

Lemma dialogueInv_frame env subject0 level0 w w' :
  dialogue w' = dialogue w ->
  dialogueInv env subject0 level0 w -> dialogueInv env subject0 level0 w'.
Proof.
  unfold dialogue, dialogueInv. intros [= Hh Hs Hl Hr Hp].
  rewrite Hh, Hs, Hl, Hr, Hp. tauto.
Qed.

Lemma dialogueInv_intro env subject0 level0 w h s l rq ps :
  dialogue w = (h, s, l, rq, ps) ->
  s = subject0 -> l = level0 ->
  head h = Some (systemEntry subject0 level0) ->
  entries system h = 1 -> entries model h = 0 ->
  entries user h = length rq ->
  entries tutor h + awaited ps <= length rq ->
  (noApiKey env = true -> rq = []) ->
  dialogueInv env subject0 level0 w.
Proof.
  unfold dialogue, dialogueInv. intros [= <- <- <- <- <-]. tauto.
Qed.

Lemma head_snoc {A} (h : list A) (x y : A) : head h = Some x -> head (h ++ [y]) = Some x.
Proof. destruct h; [discriminate|exact id]. Qed.

Lemma dialogueInv_step env subject0 level0 w e :
  dialogueInv env subject0 level0 w -> dialogueInv env subject0 level0 (step env w e).
Proof.
  intros Hinv. destruct e; cbn [step].
  - eapply dialogueInv_frame, Hinv. apply dialogue_startMediaStream.
  - eapply dialogueInv_frame, Hinv. apply dialogue_stopAudioStream.
  - eapply dialogueInv_frame, Hinv. apply dialogue_stopVideoStream.
  - eapply dialogueInv_frame, Hinv. apply dialogue_stopScreenStream.
  - eapply dialogueInv_frame, Hinv. apply dialogue_close.
  - destruct (timers w !! i) as [t|]; [|exact Hinv].
    eapply dialogueInv_frame, Hinv. now rewrite dialogue_runTimer.
  - (* the interval *)
    destruct (captureInterval (this w)); [|exact Hinv].
    destruct (dialogue_captureScreenFrame env w) as [Hc|[track Hc]].
    + eapply dialogueInv_frame, Hinv. exact Hc.
    + destruct Hinv as (Is & Il & Ih & Isys & Imod & Iusr & Itut & Ikey).
      eapply dialogueInv_intro; [exact Hc|try assumption..].
      rewrite awaited_snoc. cbn. lia.
  - (* the frame promise *)
    destruct (pending w !! i) as [[track|rq]|] eqn:Hi; try exact Hinv.
    set (w0 := set_pending (delete i (pending w)) w).
    assert (Hinv0 : dialogueInv env subject0 level0 w0).
    { pose proof (awaited_delete _ _ _ Hi) as Hd. cbn in Hd.
      destruct Hinv as (Is & Il & Ih & Isys & Imod & Iusr & Itut & Ikey).
      eapply dialogueInv_intro; [reflexivity|try assumption..].
      subst w0. cbn. unfold awaited in *. lia. }
    clearbody w0.
    destruct (dialogue_captureScreenFrame_grabbed env g sdkOk w0)
      as [Hc|(Hkey & question & rq & Hc)].
    + eapply dialogueInv_frame, Hinv0. exact Hc.
    + destruct Hinv0 as (Is & Il & Ih & Isys & Imod & Iusr & Itut & Ikey).
      eapply dialogueInv_intro; [exact Hc|try assumption..].
      * now apply head_snoc.
      * rewrite entries_snoc. cbn. lia.
      * rewrite entries_snoc. cbn. lia.
      * rewrite entries_snoc, List.length_app. cbn. lia.
      * rewrite entries_snoc, awaited_snoc, List.length_app. cbn. lia.
      * rewrite Hkey. discriminate.
  - (* the request *)
    destruct (pending w !! i) as [[track|rq]|] eqn:Hi; try exact Hinv.
    set (w0 := set_pending (delete i (pending w)) w).
    pose proof (awaited_delete _ _ _ Hi) as Hd. cbn in Hd.
    destruct Hinv as (Is & Il & Ih & Isys & Imod & Iusr & Itut & Ikey).
    eapply dialogueInv_intro; [apply dialogue_settled|try assumption..];
      cbn [w0 set_pending this requests pending].
    + destruct o; [now apply head_snoc|exact Ih..].
    + destruct o; rewrite ?entries_snoc; cbn; unfold awaited in *; lia.
    + destruct o; rewrite ?entries_snoc; cbn; unfold awaited in *; lia.
    + destruct o; rewrite ?entries_snoc; cbn; unfold awaited in *; lia.
    + destruct o; rewrite ?entries_snoc; cbn; unfold awaited in *; lia.
  - eapply dialogueInv_frame, Hinv. apply dialogue_deliver, dialogue_onresultHandler.
  - eapply dialogueInv_frame, Hinv. apply dialogue_deliver, dialogue_onerrorHandler.
  - eapply dialogueInv_frame, Hinv. apply dialogue_recognizerEnds.
  - eapply dialogueInv_frame, Hinv. apply dialogue_utteranceLeaves. reflexivity.
  - eapply dialogueInv_frame, Hinv. apply dialogue_utteranceLeaves. reflexivity.
  - eapply dialogueInv_frame, Hinv. reflexivity.
  - eapply dialogueInv_frame, Hinv. apply dialogue_screenTrackEnds.
Qed.

Lemma dialogueInv_run env subject0 level0 es :
  dialogueInv env subject0 level0 (run env (newSession env subject0 level0) es).
Proof.
  induction es as [|e es IH] using rev_ind.
  - repeat split; cbn; try reflexivity; lia.
  - unfold run in *. rewrite fold_left_app_one. now apply dialogueInv_step.
Qed.

(** X16: in every world of a session created for a subject and a level, these
    two are unchanged and the history begins with the one system entry made
    from them; it holds no [model] entry, one [user] entry for each request
    sent to the model, and no more [tutor] entries than requests that have
    settled. *)
Theorem history_follows_requests :
  forall env subject0 level0 es,
    let w := run env (newSession env subject0 level0) es in
    subject (this w) = subject0
    /\ level (this w) = level0
    /\ head (messageHistory (this w)) = Some (systemEntry subject0 level0)
    /\ entries system (messageHistory (this w)) = 1
    /\ entries model (messageHistory (this w)) = 0
    /\ entries user (messageHistory (this w)) = length (requests w)
    /\ entries tutor (messageHistory (this w)) + awaited (pending w) <= length (requests w).
Proof.
  intros env subject0 level0 es w.
  destruct (dialogueInv_run env subject0 level0 es) as (H1 & H2 & H3 & H4 & H5 & H6 & H7 & _).
  repeat split; assumption.
Qed.

(** X17: without an API key no request is ever sent to the model and the
    history never grows beyond its system entry, whatever happens in the
    session. *)
Theorem no_api_key_no_dialogue :
  forall env subject0 level0 es,
    noApiKey env = true ->
    let w := run env (newSession env subject0 level0) es in
    requests w = []
    /\ awaited (pending w) = 0
    /\ messageHistory (this w) = [systemEntry subject0 level0].
Proof.
  intros env subject0 level0 es Hkey w.
  destruct (dialogueInv_run env subject0 level0 es)
    as (_ & _ & Hh & Hsys & Hmod & Husr & Htut & Hno).
  fold w in Hh, Hsys, Hmod, Husr, Htut, Hno.
  specialize (Hno Hkey). rewrite Hno in Husr, Htut. cbn in Husr, Htut.
  split; [exact Hno|]. split; [lia|].
  assert (Hlen : length (messageHistory (this w)) = 1).
  { rewrite entries_total, Hsys, Hmod, Husr. lia. }
  destruct (messageHistory (this w)) as [|m [|m' h]]; try discriminate.
  cbn in Hh. now injection Hh as ->.
Qed.

(** X17, witness: a question asked and a frame sampled without a key. *)
Lemma no_api_key_no_dialogue_witness :
  noApiKey keylessBrowser = true
  /\ messageHistory
       (this (run keylessBrowser (newSession keylessBrowser "algebra" "beginner")
                askedAndSampled))
     = [systemEntry "algebra" "beginner"].
Proof.
  split; [reflexivity|].
  destruct (no_api_key_no_dialogue keylessBrowser "algebra" "beginner" askedAndSampled
              eq_refl) as (_ & _ & Hh).
  exact Hh.
Defined.
